(** * csi-gcs admission webhook: membership cache, class watcher, admission handler

    A shallow embedding of [pkg/webhook/storageclasses.go] and
    [pkg/webhook/server.go].  Go maps become stdpp [gmap]s, Go strings become
    [string], pointers that may be nil become [option], and the mutable
    handler state is threaded explicitly. *)

From stdpp Require Import gmap strings list.

Open Scope string_scope.
Open Scope list_scope.

(** ** storageclasses.go: the set of driver-backed storage classes *)

(** [type driverStorageClassesSet struct { m sync.RWMutex; classes map[string]struct{} }].
    Every method brackets its body with a lock and a deferred unlock of [m],
    so run on its own it leaves the mutex as it found it; the sequential
    embedding keeps the guarded map only.  The mutex comes back in module
    [Interleaving] below. *)
Record driverStorageClassesSet := DriverStorageClassesSet {
  classes : gmap string ()
}.

(** [_, exist := s.classes[className]; return exist] *)
Definition has (s : driverStorageClassesSet) (className : string) : bool :=
  match classes s !! className with
  | Some _ => true
  | None => false
  end.

(** [s.classes[className] = struct{}{}] *)
Definition add (s : driverStorageClassesSet) (className : string)
  : driverStorageClassesSet :=
  {| classes := <[className := ()]> (classes s) |}.

(** [delete(s.classes, className)] *)
Definition remove (s : driverStorageClassesSet) (className : string)
  : driverStorageClassesSet :=
  {| classes := delete className (classes s) |}.

(** [driverStorageClassesSet{classes: make(map[string]struct{})}], as built in
    [NewServer]. *)
Definition newDriverStorageClassesSet : driverStorageClassesSet :=
  {| classes := ∅ |}.

(** A call of one of the two mutating methods. *)
Inductive setOp :=
| OpAdd (className : string)
| OpRemove (className : string).

Definition opName (o : setOp) : string :=
  match o with OpAdd n => n | OpRemove n => n end.

Definition applyOp (s : driverStorageClassesSet) (o : setOp)
  : driverStorageClassesSet :=
  match o with
  | OpAdd n => add s n
  | OpRemove n => remove s n
  end.

(** The calls are made one after the other, first to last. *)
Definition applyOps (ops : list setOp) (s : driverStorageClassesSet)
  : driverStorageClassesSet :=
  fold_left applyOp ops s.

(** The last call in [ops] that mentions [n] is an [add]. *)
Definition lastMentionIsAdd (ops : list setOp) (n : string) : Prop :=
  ∃ before after,
    ops = before ++ OpAdd n :: after ∧ Forall (λ o, opName o ≠ n) after.


(** ** The Kubernetes API objects the package reads

    Only the fields that [server.go] touches (or passes on) are kept. *)

Module storagev1.
(** [storagev1.StorageClass]: [ObjectMeta.Name], [ObjectMeta.Annotations]
    and [Provisioner]. *)
Record StorageClass := {
  Name : string;
  Annotations : gmap string string;
  Provisioner : string
}.
End storagev1.

Module corev1.
(** [corev1.Volume]: the two volume sources a driver volume can come from,
    each a pointer in Go. *)
Record Volume := {
  VolumeName : string;
  CSI : option string;                    (* CSI.Driver *)
  PersistentVolumeClaim : option string   (* PersistentVolumeClaim.ClaimName *)
}.

(** One [NodeSelectorRequirement] of a node-affinity term. *)
Record NodeSelectorRequirement := {
  Key : string;
  Operator : string;
  Values : list string
}.

Record PodSpec := {
  Volumes : list Volume;
  NodeSelector : gmap string string;
  (* Affinity.NodeAffinity...NodeSelectorTerms[i].MatchExpressions *)
  NodeAffinityTerms : list (list NodeSelectorRequirement)
}.

Record Pod := {
  Name : string;
  Namespace : string;
  Spec : PodSpec
}.

(** [pod.Namespace = ns] *)
Definition setNamespace (pod : Pod) (ns : string) : Pod :=
  {| Name := Name pod; Namespace := ns; Spec := Spec pod |}.
End corev1.

Module admissionv1.
(** [type Operation string] and [type PatchType string] with their
    constants. *)
Definition Create : string := "CREATE".
Definition PatchTypeJSONPatch : string := "JSONPatch".

Record TypeMeta := {
  Kind : string;
  APIVersion : string
}.

(** [Object] is a [runtime.RawExtension]; [ObjectRaw] is its [Raw] bytes. *)
Record AdmissionRequest := {
  UID : string;
  Operation : string;
  Namespace : string;
  ObjectRaw : string
}.

(** [Patch] is a byte slice and [PatchType] a pointer: [None] is nil. *)
Record AdmissionResponse := {
  RespUID : string;
  Allowed : bool;
  Patch : option string;
  PatchType : option string
}.

(** [Request] and [Response] are pointers. *)
Record AdmissionReview := {
  Meta : TypeMeta;
  Request : option AdmissionRequest;
  Response : option AdmissionResponse
}.
End admissionv1.

(** ** server.go: the class watcher

    The three closures of [cache.ResourceEventHandlerFuncs] in [NewServer].
    They capture [driverName] and the handler [h], of which they only touch
    [h.driverStorageClasses]; the [klog] calls are left out. *)

(** What the informer hands to a callback as [interface{}]: the type
    assertion to a storage-class pointer succeeds on the first constructor
    only.  The informer decodes the objects it delivers, so the pointer is
    never nil; tombstones of missed deletions are among the other values. *)
Inductive object :=
| ObjStorageClass (stc : storagev1.StorageClass)
| ObjOther.

Definition isDefaultClassAnnotation : string :=
  "storageclass.kubernetes.io/is-default-class".

(** [stc.Annotations[key]]: a missing key reads as the empty string. *)
Definition annotation (stc : storagev1.StorageClass) (key : string) : string :=
  default "" (storagev1.Annotations stc !! key).

Definition AddFunc (driverName : string) (obj : object)
    (s : driverStorageClassesSet) : driverStorageClassesSet :=
  match obj with
  | ObjOther => s
  | ObjStorageClass stc =>
      if decide (storagev1.Provisioner stc = driverName) then
        let s := add s (storagev1.Name stc) in
        if decide (annotation stc isDefaultClassAnnotation = "true")
        then add s ""
        else s
      else s
  end.

Definition DeleteFunc (driverName : string) (obj : object)
    (s : driverStorageClassesSet) : driverStorageClassesSet :=
  match obj with
  | ObjOther => s
  | ObjStorageClass stc =>
      if decide (storagev1.Provisioner stc = driverName) then
        let s := remove s (storagev1.Name stc) in
        if decide (annotation stc isDefaultClassAnnotation = "true")
        then remove s ""
        else s
      else s
  end.

Definition UpdateFunc (driverName : string) (oldo newo : object)
    (s : driverStorageClassesSet) : driverStorageClassesSet :=
  match newo with
  | ObjOther => s
  | ObjStorageClass newstc =>
      if decide (storagev1.Provisioner newstc = driverName) then
        let s := add s (storagev1.Name newstc) in
        if decide (annotation newstc isDefaultClassAnnotation = "true")
        then add s ""
        else s
      else s
  end.

(** A notification of the informer, and the callback it runs. *)
Inductive event :=
| AddEvent (obj : object)
| UpdateEvent (oldo newo : object)
| DeleteEvent (obj : object).

Definition handleEvent (driverName : string) (s : driverStorageClassesSet)
    (ev : event) : driverStorageClassesSet :=
  match ev with
  | AddEvent obj => AddFunc driverName obj s
  | UpdateEvent oldo newo => UpdateFunc driverName oldo newo s
  | DeleteEvent obj => DeleteFunc driverName obj s
  end.

(** [c.Run]: the notifications are handled in the order they arrive. *)
Definition runWatcher (driverName : string) (evs : list event)
    (s : driverStorageClassesSet) : driverStorageClassesSet :=
  fold_left (handleEvent driverName) evs s.

(** The delete notification [ev] takes [n] out of the set: it carries a class
    of the driver that is named [n], or that is annotated as the default
    class when [n] is the empty string. *)
Definition evicts (driverName n : string) (ev : event) : bool :=
  match ev with
  | DeleteEvent (ObjStorageClass stc) =>
      bool_decide (storagev1.Provisioner stc = driverName)
      && (bool_decide (storagev1.Name stc = n)
          || (bool_decide (n = "")
              && bool_decide (annotation stc isDefaultClassAnnotation = "true")))
  | _ => false
  end.

(** The calls on the set that a class of the driver causes when it is added
    or updated, and when it is deleted. *)
Definition insertCalls (stc : storagev1.StorageClass) : list setOp :=
  OpAdd (storagev1.Name stc)
  :: (if decide (annotation stc isDefaultClassAnnotation = "true")
      then [OpAdd ""] else []).

Definition deleteCalls (stc : storagev1.StorageClass) : list setOp :=
  OpRemove (storagev1.Name stc)
  :: (if decide (annotation stc isDefaultClassAnnotation = "true")
      then [OpRemove ""] else []).

(** The calls on the set that a notification causes, in order. *)
Definition eventOps (driverName : string) (ev : event) : list setOp :=
  match ev with
  | AddEvent (ObjStorageClass stc) | UpdateEvent _ (ObjStorageClass stc) =>
      if decide (storagev1.Provisioner stc = driverName)
      then insertCalls stc else []
  | DeleteEvent (ObjStorageClass stc) =>
      if decide (storagev1.Provisioner stc = driverName)
      then deleteCalls stc else []
  | _ => []
  end.

(** The notification [ev] puts [n] into the set: an add or update that
    carries a class of the driver named [n], or annotated as the default
    class when [n] is the empty string. *)
Definition inserts (driverName n : string) (ev : event) : bool :=
  match ev with
  | AddEvent (ObjStorageClass stc) | UpdateEvent _ (ObjStorageClass stc) =>
      bool_decide (storagev1.Provisioner stc = driverName)
      && (bool_decide (storagev1.Name stc = n)
          || (bool_decide (n = "")
              && bool_decide (annotation stc isDefaultClassAnnotation = "true")))
  | _ => false
  end.

(** ** net/http, as far as the handlers use it *)

Module http.
#[local] Open Scope Z_scope.

Definition MethodPost : string := "POST".

Definition StatusOK : Z := 200.
Definition StatusBadRequest : Z := 400.
Definition StatusMethodNotAllowed : Z := 405.
Definition StatusInternalServerError : Z := 500.

(** [http.StatusText] on the codes above; any other code is not used here. *)
Definition StatusText (code : Z) : string :=
  if decide (code = StatusOK) then "OK"
  else if decide (code = StatusBadRequest) then "Bad Request"
  else if decide (code = StatusMethodNotAllowed) then "Method Not Allowed"
  else if decide (code = StatusInternalServerError) then "Internal Server Error"
  else "".

Record Request := {
  Method : string;
  Body : string
}.

(** What has been sent through an [http.ResponseWriter]: the header map,
    the status line ([0] while none was written) and the body so far. *)
Record ResponseWriter := {
  Header : gmap string string;
  Status : Z;
  Written : string
}.

Definition freshWriter : ResponseWriter :=
  {| Header := ∅; Status := 0; Written := "" |}.

Definition HeaderSet (w : ResponseWriter) (k v : string) : ResponseWriter :=
  {| Header := <[k := v]> (Header w); Status := Status w; Written := Written w |}.

(** Only the first [WriteHeader] counts. *)
Definition WriteHeader (w : ResponseWriter) (code : Z) : ResponseWriter :=
  if decide (Status w = 0)
  then {| Header := Header w; Status := code; Written := Written w |}
  else w.

(** [Write] sends a 200 status line first when none was written. *)
Definition Write (w : ResponseWriter) (bts : string) : ResponseWriter :=
  let w := WriteHeader w StatusOK in
  {| Header := Header w; Status := Status w; Written := Written w +:+ bts |}.

(** The one-byte string holding the line feed (byte 10) that
    [fmt.Fprintln] appends. *)
Definition lineFeed : string :=
  String (Ascii.Ascii false true false true false false false false) "".

(** [http.Error]: plain-text headers, the status line, the message and a
    line feed. *)
Definition Error (w : ResponseWriter) (error : string) (code : Z)
  : ResponseWriter :=
  let w := HeaderSet w "Content-Type" "text/plain; charset=utf-8" in
  let w := HeaderSet w "X-Content-Type-Options" "nosniff" in
  let w := WriteHeader w code in
  Write w (error +:+ lineFeed).
End http.

(** ** server.go: the handler and its collaborators *)

(** Code that [handleInjectDriverReadySelector] calls and that lives outside
    [server.go]: the control-plane client, [encoding/json] at the three types
    it is used at (an error carries its message), and the two pod predicates
    of this package.  [podHasCsiGCSVolume] is handed the set by value, which
    in Go copies the struct but shares the map behind it; the set it leaves
    behind is therefore part of its result. *)
Class Collaborators := {
  Clientset : Type;
  CoreV1Interface : Type;
  CoreV1 : Clientset → CoreV1Interface;
  jsonDecodeAdmissionReview : string → string + admissionv1.AdmissionReview;
  jsonUnmarshalPod : string → string + corev1.Pod;
  jsonMarshalAdmissionReview : admissionv1.AdmissionReview → string + string;
  podHasDriverReadyLabelSelectorOrAffinity : corev1.Pod → string → bool;
  podHasCsiGCSVolume :
    corev1.Pod → string → CoreV1Interface → driverStorageClassesSet →
    bool * driverStorageClassesSet
}.

(** [type handler struct]. *)
Record handler `{Collaborators} := Handler {
  k8sClient : Clientset;
  driverReadyLabel : string;
  driverReadySelectorPodPatch : string;
  driverName : string;
  driverStorageClasses : driverStorageClassesSet
}.

Definition setDriverStorageClasses `{Collaborators} (h : handler)
    (s : driverStorageClassesSet) : handler :=
  {| k8sClient := k8sClient h;
     driverReadyLabel := driverReadyLabel h;
     driverReadySelectorPodPatch := driverReadySelectorPodPatch h;
     driverName := driverName h;
     driverStorageClasses := s |}.

(** How a call of a handler ends: it returns, having written [w], or the
    goroutine panics on a nil pointer. *)
Inductive outcome :=
| Returned (w : http.ResponseWriter)
| Panicked.

Definition handleHealthz `{Collaborators} (h : handler)
    (w : http.ResponseWriter) (r : http.Request) : outcome * handler :=
  let w := http.WriteHeader w http.StatusOK in
  (Returned (http.Write w "OK"), h).

Definition jsonOKResponse `{Collaborators} (w : http.ResponseWriter)
    (rsp : admissionv1.AdmissionReview) : http.ResponseWriter :=
  match jsonMarshalAdmissionReview rsp with
  | inl err =>
      http.Error w ("unable to encode response: " +:+ err)
        http.StatusInternalServerError
  | inr bts =>
      let w := http.HeaderSet w "Content-Type" "application/json" in
      let w := http.WriteHeader w http.StatusOK in
      http.Write w bts
  end.

Definition handleInjectDriverReadySelector `{Collaborators} (h : handler)
    (w : http.ResponseWriter) (r : http.Request) : outcome * handler :=
  if decide (http.Method r ≠ http.MethodPost) then
    (Returned (http.Error w (http.StatusText http.StatusMethodNotAllowed)
                 http.StatusMethodNotAllowed), h)
  else
    match jsonDecodeAdmissionReview (http.Body r) with
    | inl err =>
        (Returned (http.Error w ("unable to decode request: " +:+ err)
                     http.StatusBadRequest), h)
    | inr admrev =>
        match admissionv1.Request admrev with
        | None => (Panicked, h)            (* admrev.Request.Operation *)
        | Some req =>
            if decide (admissionv1.Operation req ≠ admissionv1.Create) then
              (Returned
                 (http.Error w
                    "unsupported admission operation, operation must be 'create'"
                    http.StatusBadRequest), h)
            else
              match jsonUnmarshalPod (admissionv1.ObjectRaw req) with
              | inl err =>
                  (Returned
                     (http.Error w
                        ("unable to decode request object, expected v1/Pod: "
                           +:+ err)
                        http.StatusBadRequest), h)
              | inr pod =>
                  let pod := corev1.setNamespace pod (admissionv1.Namespace req) in
                  let admresp :=
                    {| admissionv1.RespUID := admissionv1.UID req;
                       admissionv1.Allowed := true;
                       admissionv1.Patch := None;
                       admissionv1.PatchType := None |} in
                  let '(admresp, h) :=
                    if podHasDriverReadyLabelSelectorOrAffinity pod
                         (driverReadyLabel h)
                    then (admresp, h)
                    else
                      let '(uses, s) :=
                        podHasCsiGCSVolume pod (driverName h)
                          (CoreV1 (k8sClient h)) (driverStorageClasses h) in
                      let h := setDriverStorageClasses h s in
                      if uses then
                        ({| admissionv1.RespUID := admissionv1.RespUID admresp;
                            admissionv1.Allowed := admissionv1.Allowed admresp;
                            admissionv1.Patch :=
                              Some (driverReadySelectorPodPatch h);
                            admissionv1.PatchType :=
                              Some admissionv1.PatchTypeJSONPatch |}, h)
                      else (admresp, h)
                  in
                  (Returned
                     (jsonOKResponse w
                        {| admissionv1.Meta := admissionv1.Meta admrev;
                           admissionv1.Request := None;
                           admissionv1.Response := Some admresp |}), h)
              end
        end
    end.

(** *** The responses the handler can send

    Names for the values built in [handleInjectDriverReadySelector], to state
    its properties with. *)

(** The response the handler starts from: allowed, nothing attached. *)
Definition plainAllow (req : admissionv1.AdmissionRequest)
  : admissionv1.AdmissionResponse :=
  {| admissionv1.RespUID := admissionv1.UID req;
     admissionv1.Allowed := true;
     admissionv1.Patch := None;
     admissionv1.PatchType := None |}.

(** The same with the patch of the handler and its JSON-patch marker. *)
Definition patchedAllow `{Collaborators} (h : handler)
    (req : admissionv1.AdmissionRequest) : admissionv1.AdmissionResponse :=
  {| admissionv1.RespUID := admissionv1.UID req;
     admissionv1.Allowed := true;
     admissionv1.Patch := Some (driverReadySelectorPodPatch h);
     admissionv1.PatchType := Some admissionv1.PatchTypeJSONPatch |}.

(** The review sent back: the type metadata of the request, no request,
    the response. *)
Definition reviewWith (admrev : admissionv1.AdmissionReview)
    (admresp : admissionv1.AdmissionResponse) : admissionv1.AdmissionReview :=
  {| admissionv1.Meta := admissionv1.Meta admrev;
     admissionv1.Request := None;
     admissionv1.Response := Some admresp |}.

(** ** The two pod predicates, and a cluster to run the handler against *)

Module PodInspection.
Import corev1.

(** The claims of the cluster as the client reads them: namespace and claim
    name to the claim's storage-class name, a pointer that is nil for a
    claim that names no class.  A claim that is not in the map is one whose
    lookup fails. *)
Definition claims := gmap (string * string) (option string).

(** Modelled from the spec: [podHasDriverReadyLabelSelectorOrAffinity] is
    not among the source files.  It holds when the pod specification
    already expresses a node-selector or node-affinity term referencing
    the readiness label. *)
Definition podHasDriverReadyLabelSelectorOrAffinity (pod : Pod)
    (label : string) : bool :=
  match NodeSelector (Spec pod) !! label with
  | Some _ => true
  | None =>
      existsb (existsb (λ req, bool_decide (Key req = label)))
        (NodeAffinityTerms (Spec pod))
  end.

(** Modelled from the spec: one volume uses the driver when it names the
    driver directly, or claims a persistent volume claim that resolves to a
    storage class of the set, a claim without a class name resolving to the
    empty-string entry; a failed lookup counts as not using the driver. *)
Definition volumeUsesDriver (ns driverName : string) (client : claims)
    (s : driverStorageClassesSet) (v : Volume) : bool :=
  match CSI v with
  | Some driver => bool_decide (driver = driverName)
  | None => false
  end
  || match PersistentVolumeClaim v with
     | Some claimName =>
         match client !! (ns, claimName) with
         | Some storageClassName => has s (default "" storageClassName)
         | None => false
         end
     | None => false
     end.

(** Modelled from the spec: [podHasCsiGCSVolume] is not among the source
    files.  The pod uses the driver when one of its volumes does; the set
    is only read. *)
Definition podHasCsiGCSVolume (pod : Pod) (driverName : string)
    (client : claims) (s : driverStorageClassesSet)
  : bool * driverStorageClassesSet :=
  (existsb (volumeUsesDriver (Namespace pod) driverName client s)
     (Volumes (Spec pod)), s).
End PodInspection.

(** A small cluster, two pods and a stand-in for [encoding/json] that knows
    a handful of bodies by name; used to run the handler on concrete
    requests. *)
Module Fixture.
Import corev1 admissionv1.

Definition sampleDriverName : string := "gcs.csi.ofek.dev".
Definition sampleReadyLabel : string := "gcs.csi.ofek.dev/driver-ready".

Definition dataVolume : Volume :=
  {| VolumeName := "data"; CSI := None; PersistentVolumeClaim := Some "data-claim" |}.

(** A pod with a claimed volume and no scheduling preference. *)
Definition plainPod : Pod :=
  {| corev1.Name := "web-0"; corev1.Namespace := "";
     Spec := {| Volumes := [dataVolume]; NodeSelector := ∅;
                NodeAffinityTerms := [] |} |}.

(** The same pod once it selects nodes by the readiness label. *)
Definition selectingPod : Pod :=
  {| corev1.Name := "web-0"; corev1.Namespace := "";
     Spec := {| Volumes := [dataVolume];
                NodeSelector := {[ sampleReadyLabel := "true" ]};
                NodeAffinityTerms := [] |} |}.

Definition sampleMeta : TypeMeta :=
  {| Kind := "AdmissionReview"; APIVersion := "admission.k8s.io/v1" |}.

Definition requestOf (op raw : string) : AdmissionRequest :=
  {| UID := "uid-1"; Operation := op;
     admissionv1.Namespace := "prod"; ObjectRaw := raw |}.

Definition reviewOf (op raw : string) : AdmissionReview :=
  {| Meta := sampleMeta;
     Request := Some (requestOf op raw);
     Response := None |}.

(** The decoded form of the JSON document that is an empty object. *)
Definition emptyReview : AdmissionReview :=
  {| Meta := {| Kind := ""; APIVersion := "" |};
     Request := None; Response := None |}.

Definition decodeReview (body : string) : string + AdmissionReview :=
  if decide (body = "{}") then inr emptyReview
  else if decide (body = "create plain") then inr (reviewOf "CREATE" "plain")
  else if decide (body = "create selecting") then inr (reviewOf "CREATE" "selecting")
  else if decide (body = "create garbage") then inr (reviewOf "CREATE" "garbage")
  else if decide (body = "update plain") then inr (reviewOf "UPDATE" "plain")
  else inl "invalid character".

Definition unmarshalPod (raw : string) : string + Pod :=
  if decide (raw = "plain") then inr plainPod
  else if decide (raw = "selecting") then inr selectingPod
  else inl "unexpected end of JSON input".

Definition marshalReview (rsp : AdmissionReview) : string + string :=
  match Response rsp with
  | Some a =>
      inr (RespUID a +:+ (if Allowed a then " allowed" else " denied")
             +:+ (match Patch a with Some p => " " +:+ p | None => "" end))
  | None => inr ""
  end.

#[export] Instance sampleCollaborators : Collaborators := {|
  Clientset := PodInspection.claims;
  CoreV1Interface := PodInspection.claims;
  CoreV1 := λ c, c;
  jsonDecodeAdmissionReview := decodeReview;
  jsonUnmarshalPod := unmarshalPod;
  jsonMarshalAdmissionReview := marshalReview;
  podHasDriverReadyLabelSelectorOrAffinity :=
    PodInspection.podHasDriverReadyLabelSelectorOrAffinity;
  podHasCsiGCSVolume := PodInspection.podHasCsiGCSVolume
|}.

(** The claim of [plainPod], in the namespace of the review, names the
    class [standard]. *)
Definition sampleClaims : PodInspection.claims :=
  {[ ("prod", "data-claim") := Some "standard" ]}.

Definition sampleHandler (s : driverStorageClassesSet) : handler :=
  {| k8sClient := sampleClaims;
     driverReadyLabel := sampleReadyLabel;
     driverReadySelectorPodPatch := "add /spec/nodeSelector/driver-ready true";
     driverName := sampleDriverName;
     driverStorageClasses := s |}.

Definition post (body : string) : http.Request :=
  {| http.Method := "POST"; http.Body := body |}.

Definition get : http.Request :=
  {| http.Method := "GET"; http.Body := "" |}.

(** The set once the class [standard] is known. *)
Definition standardOnly : driverStorageClassesSet :=
  add newDriverStorageClassesSet "standard".

Definition storageClass (name provisioner : string) (isDefault : bool)
  : storagev1.StorageClass :=
  {| storagev1.Name := name;
     storagev1.Annotations :=
       if isDefault then {[ isDefaultClassAnnotation := "true" ]} else ∅;
     storagev1.Provisioner := provisioner |}.

(** A default class of the driver, and the same class as reported once
    its provisioner is another one. *)
Definition fast : storagev1.StorageClass :=
  storageClass "fast" sampleDriverName true.

Definition fastElsewhere : storagev1.StorageClass :=
  storageClass "fast" "example.com/other" true.
End Fixture.

(** ** Goroutines sharing the set

    The informer goroutine started by [go c.Run(stopCh)] writes the set while
    the goroutines serving requests read it.  Here the mutex is kept: every
    lock operation and every access to the map is one atomic instruction, a
    machine state holds the mutexes in memory, the one map all copies of the
    struct point to, and what is left to run of each goroutine, and a
    schedule picks the goroutine that moves next. *)

Module Interleaving.

(** [sync.RWMutex]: held by one writer, or by some number of readers. *)
Record RWMutex := {
  writerHeld : bool;
  readerCount : nat
}.

Definition zeroRWMutex : RWMutex :=
  {| writerHeld := false; readerCount := 0 |}.

(** Mutexes are told apart by their address. *)
Inductive instr :=
| CopySet (dst : nat)      (* copy the handler's struct, mutex included *)
| Lock (m : nat)
| Unlock (m : nat)
| RLock (m : nat)
| RUnlock (m : nat)
| MapLoad (k : string)     (* _, exist := s.classes[k] *)
| MapStore (k : string)    (* s.classes[k] = struct{}{} *)
| MapDelete (k : string).  (* delete(s.classes, k) *)

Record machine := {
  mutexes : gmap nat RWMutex;
  sharedMap : gmap string ();
  goroutines : list (list instr)
}.

(** Where [h.driverStorageClasses.m] lives. *)
Definition handlerMutex : nat := 0.

(** The methods of [storageclasses.go] on the struct whose mutex is at
    [m]; the deferred unlock runs last. *)
Definition hasCode (m : nat) (className : string) : list instr :=
  [RLock m; MapLoad className; RUnlock m].

Definition addCode (m : nat) (className : string) : list instr :=
  [Lock m; MapStore className; Unlock m].

Definition removeCode (m : nat) (className : string) : list instr :=
  [Lock m; MapDelete className; Unlock m].

(** The informer goroutine: the callbacks call [add] and [remove] on
    [h.driverStorageClasses] itself. *)
Definition opCode (o : setOp) : list instr :=
  match o with
  | OpAdd n => addCode handlerMutex n
  | OpRemove n => removeCode handlerMutex n
  end.

Definition watcherCode (ops : list setOp) : list instr :=
  flat_map opCode ops.

(** Modelled from the spec: the body of [podHasCsiGCSVolume] is not among
    the source files.  For a volume that claims a persistent volume claim it
    asks the set it was given, whose mutex is at [m], whether the storage
    class of the claim is present. *)
Definition calleeCode (m : nat) (className : string) : list instr :=
  hasCode m className.

(** A request goroutine [g], as [server.go] has it: the call of
    [podHasCsiGCSVolume] passes [h.driverStorageClasses] by value, which
    copies the struct, mutex included, into the argument (placed at address
    [S g]); the callee works on that copy. *)
Definition requestCode (g : nat) (className : string) : list instr :=
  CopySet (S g) :: calleeCode (S g) className.

(** What the same request would run if the callee were handed a pointer to
    the handler's set. *)
Definition requestCodeByPointer (className : string) : list instr :=
  calleeCode handlerMutex className.

(** One instruction on the memory; [None] when the goroutine cannot move
    (it blocks on the mutex) or the runtime aborts (unlock of a mutex that
    is not locked). *)
Definition exec (i : instr) (mu : gmap nat RWMutex) (cl : gmap string ())
  : option (gmap nat RWMutex * gmap string ()) :=
  match i with
  | CopySet dst =>
      m ← mu !! handlerMutex; Some (<[dst := m]> mu, cl)
  | Lock a =>
      m ← mu !! a;
      if writerHeld m then None
      else match readerCount m with
           | O => Some (<[a := {| writerHeld := true; readerCount := 0 |}]> mu, cl)
           | S _ => None
           end
  | Unlock a =>
      m ← mu !! a;
      if writerHeld m
      then Some (<[a := {| writerHeld := false; readerCount := readerCount m |}]> mu, cl)
      else None
  | RLock a =>
      m ← mu !! a;
      if writerHeld m then None
      else Some (<[a := {| writerHeld := false; readerCount := S (readerCount m) |}]> mu, cl)
  | RUnlock a =>
      m ← mu !! a;
      match readerCount m with
      | O => None
      | S n => Some (<[a := {| writerHeld := writerHeld m; readerCount := n |}]> mu, cl)
      end
  | MapLoad _ => Some (mu, cl)
  | MapStore k => Some (mu, <[k := ()]> cl)
  | MapDelete k => Some (mu, delete k cl)
  end.

(** Goroutine [g] runs its next instruction. *)
Definition step (st : machine) (g : nat) : option machine :=
  match goroutines st !! g with
  | Some (i :: rest) =>
      match exec i (mutexes st) (sharedMap st) with
      | Some (mu, cl) =>
          Some {| mutexes := mu; sharedMap := cl;
                  goroutines := <[g := rest]> (goroutines st) |}
      | None => None
      end
  | _ => None
  end.

Fixpoint run (schedule : list nat) (st : machine) : option machine :=
  match schedule with
  | [] => Some st
  | g :: schedule =>
      match step st g with
      | Some st' => run schedule st'
      | None => None
      end
  end.

Definition mapWrite (i : instr) : bool :=
  match i with MapStore _ | MapDelete _ => true | _ => false end.

Definition mapAccess (i : instr) : bool :=
  match i with MapLoad _ | MapStore _ | MapDelete _ => true | _ => false end.

Definition nextInstr (st : machine) (g : nat) : option instr :=
  code ← goroutines st !! g; head code.

(** Two goroutines race on the map when the next instruction of both is an
    access to it, one of them a write: either may go first, and no lock
    operation lies between the two accesses. *)
Definition dataRace (st : machine) : Prop :=
  ∃ g1 g2 i1 i2, g1 ≠ g2 ∧
    nextInstr st g1 = Some i1 ∧ nextInstr st g2 = Some i2 ∧
    mapWrite i1 = true ∧ mapAccess i2 = true.

(** The process after [NewServer]: the handler's mutex unlocked, the map
    empty. *)
Definition boot (code : list (list instr)) : machine :=
  {| mutexes := {[ handlerMutex := zeroRWMutex ]};
     sharedMap := ∅;
     goroutines := code |}.

(** A goroutine is inside a write-locked (read-locked) section of the
    methods above. *)
Definition holdsWrite (code : list instr) : bool :=
  match code with
  | MapStore _ :: _ | MapDelete _ :: _ | Unlock _ :: _ => true
  | _ => false
  end.

Definition holdsRead (code : list instr) : bool :=
  match code with
  | MapLoad _ :: _ | RUnlock _ :: _ => true
  | _ => false
  end.

(** How many goroutines satisfy [f]. *)
Fixpoint tally (f : list instr → bool) (codes : list (list instr)) : nat :=
  match codes with
  | [] => 0
  | c :: codes => (if f c then 1 else 0) + tally f codes
  end.

(** Where a goroutine stands in a method of the set. *)
Inductive section := Outside | Writing | WriteDone | Reading | ReadDone.

Definition sectionOf (code : list instr) : section :=
  match code with
  | MapStore _ :: _ | MapDelete _ :: _ => Writing
  | Unlock _ :: _ => WriteDone
  | MapLoad _ :: _ => Reading
  | RUnlock _ :: _ => ReadDone
  | _ => Outside
  end.

(** From [sec] on, [code] is a run of [has], [add] and [remove] calls, all
    on the struct whose mutex is the handler's. *)
Fixpoint callsFrom (sec : section) (code : list instr) : bool :=
  match code with
  | [] => match sec with Outside => true | _ => false end
  | i :: rest =>
      match sec, i with
      | Outside, Lock m => Nat.eqb m handlerMutex && callsFrom Writing rest
      | Writing, MapStore _ => callsFrom WriteDone rest
      | Writing, MapDelete _ => callsFrom WriteDone rest
      | WriteDone, Unlock m => Nat.eqb m handlerMutex && callsFrom Outside rest
      | Outside, RLock m => Nat.eqb m handlerMutex && callsFrom Reading rest
      | Reading, MapLoad _ => callsFrom ReadDone rest
      | ReadDone, RUnlock m => Nat.eqb m handlerMutex && callsFrom Outside rest
      | _, _ => false
      end
  end.

Definition callsOnHandlerSet (code : list instr) : bool :=
  callsFrom (sectionOf code) code.

(** The mutex of the handler accounts for the goroutines inside the
    methods: it is write-locked when one goroutine is in [add] or
    [remove], and counts the goroutines in [has]. *)
Definition guarded (st : machine) : Prop :=
  ∃ m, mutexes st !! handlerMutex = Some m
       ∧ Forall (λ c, callsOnHandlerSet c = true) (goroutines st)
       ∧ tally holdsWrite (goroutines st) = (if writerHeld m then 1 else 0)
       ∧ tally holdsRead (goroutines st) = readerCount m
       ∧ (writerHeld m = true → readerCount m = 0).
End Interleaving.

(** * Properties *)

(** *** Basic facts about the set *)

Lemma set_eq (s t : driverStorageClassesSet) : classes s = classes t → s = t.
Proof. destruct s, t; simpl; congruence. Qed.

Lemma has_true (s : driverStorageClassesSet) (n : string) :
  has s n = true ↔ is_Some (classes s !! n).
Proof.
  unfold has. destruct (classes s !! n) as [u|]; split; intro H.
  - eauto.
  - reflexivity.
  - discriminate.
  - destruct H as [? ?]; discriminate.
Qed.

Lemma has_false (s : driverStorageClassesSet) (n : string) :
  has s n = false ↔ classes s !! n = None.
Proof.
  unfold has. destruct (classes s !! n); split; intro H;
    first [discriminate | reflexivity].
Qed.

Lemma has_add (s : driverStorageClassesSet) (n k : string) :
  has (add s n) k = true ↔ k = n ∨ has s k = true.
Proof.
  rewrite !has_true. unfold add; simpl.
  destruct (decide (n = k)) as [->|Hne].
  - rewrite lookup_insert_eq. split; [auto | eauto].
  - rewrite lookup_insert_ne by done.
    split; [auto | intros [->|H]; [done | exact H]].
Qed.

Lemma has_remove (s : driverStorageClassesSet) (n k : string) :
  has (remove s n) k = true ↔ k ≠ n ∧ has s k = true.
Proof.
  rewrite !has_true. unfold remove; simpl.
  destruct (decide (n = k)) as [->|Hne].
  - rewrite lookup_delete_eq. split.
    + intros [? ?]; discriminate.
    + intros [Hk _]; done.
  - rewrite lookup_delete_ne by done. split; [auto | intros [_ H]; exact H].
Qed.

Lemma has_new (n : string) : has newDriverStorageClassesSet n = false.
Proof. reflexivity. Qed.

Lemma add_idempotent (s : driverStorageClassesSet) (n : string) :
  add (add s n) n = add s n.
Proof. apply set_eq; simpl. apply insert_insert_eq. Qed.

Lemma remove_idempotent (s : driverStorageClassesSet) (n : string) :
  remove (remove s n) n = remove s n.
Proof.
  apply set_eq; simpl. apply delete_id. apply lookup_delete_eq.
Qed.

Lemma remove_absent (s : driverStorageClassesSet) (n : string) :
  has s n = false → remove s n = s.
Proof.
  intros H%has_false. apply set_eq; simpl. by apply delete_id.
Qed.

Lemma applyOps_snoc (ops : list setOp) (o : setOp) (s : driverStorageClassesSet) :
  applyOps (ops ++ [o]) s = applyOp (applyOps ops s) o.
Proof. unfold applyOps. by rewrite fold_left_app. Qed.

Lemma lastMentionIsAdd_nil (n : string) : ¬ lastMentionIsAdd [] n.
Proof. intros (b & a & H & _). by destruct b. Qed.

Lemma lastMentionIsAdd_snoc (ops : list setOp) (o : setOp) (n : string) :
  lastMentionIsAdd (ops ++ [o]) n ↔
  o = OpAdd n ∨ (opName o ≠ n ∧ lastMentionIsAdd ops n).
Proof.
  split.
  - intros (b & a & Heq & Hall).
    destruct a as [|x a' _] using rev_ind.
    + apply app_inj_tail in Heq as [_ ->]. by left.
    + rewrite app_comm_cons, app_assoc in Heq.
      apply app_inj_tail in Heq as [-> ->].
      apply Forall_app in Hall as [Ha Hx].
      right. split.
      * by inversion Hx.
      * by exists b, a'.
  - intros [-> | (Hne & b & a & -> & Hall)].
    + exists ops, []. split; [done | constructor].
    + exists b, (a ++ [o]). split.
      * by rewrite <- app_assoc.
      * apply Forall_app. split; [done | by apply Forall_singleton].
Qed.

Lemma has_applyOps (ops : list setOp) (n : string) :
  has (applyOps ops newDriverStorageClassesSet) n = true ↔ lastMentionIsAdd ops n.
Proof.
  induction ops as [|o ops IH] using rev_ind.
  - rewrite has_new. split; [discriminate | intros H].
    by apply lastMentionIsAdd_nil in H.
  - rewrite applyOps_snoc, lastMentionIsAdd_snoc.
    destruct o as [k|k]; simpl.
    + rewrite has_add, IH. destruct (decide (k = n)) as [->|Hne].
      * split; auto.
      * split.
        -- intros [->|H]; [done | auto].
        -- intros [[= ->]|[_ H]]; [done | auto].
    + rewrite has_remove, IH. split.
      * intros [Hne H]. right. split; [congruence | done].
      * intros [[=]|[Hne H]]. split; [congruence | done].
Qed.

(** C5.  Whatever the sequence of [add] and [remove] calls made on the empty
    set of [NewServer], [has n] afterwards is true exactly when the last call
    that mentions [n] is an [add].  Besides, [add] and [remove] are each
    idempotent, and removing a name that is absent changes nothing (the
    method has no error result to give). *)
Theorem has_reflects_net_effect (ops : list setOp) (n : string) :
  (has (applyOps ops newDriverStorageClassesSet) n = true ↔ lastMentionIsAdd ops n)
  ∧ (∀ s, add (add s n) n = add s n)
  ∧ (∀ s, remove (remove s n) n = remove s n)
  ∧ (∀ s, has s n = false → remove s n = s).
Proof.
  split; [apply has_applyOps |].
  split; [intros s; apply add_idempotent |].
  split; [intros s; apply remove_idempotent |].
  intros s; apply remove_absent.
Qed.

(** ** The class watcher *)

Section Watcher.
Variable driverName : string.

(** The set after the insertions the add and update callbacks make for a
    class of the driver. *)
Lemma has_inserted (stc : storagev1.StorageClass) (s : driverStorageClassesSet)
    (n : string) :
  has (if decide (annotation stc isDefaultClassAnnotation = "true")
       then add (add s (storagev1.Name stc)) ""
       else add s (storagev1.Name stc)) n = true
  ↔ n = storagev1.Name stc
    ∨ (annotation stc isDefaultClassAnnotation = "true" ∧ n = "")
    ∨ has s n = true.
Proof.
  destruct (decide _) as [Hd|Hd]; rewrite ?has_add; tauto.
Qed.

Lemma has_deleted (stc : storagev1.StorageClass) (s : driverStorageClassesSet)
    (n : string) :
  has (if decide (annotation stc isDefaultClassAnnotation = "true")
       then remove (remove s (storagev1.Name stc)) ""
       else remove s (storagev1.Name stc)) n = true
  ↔ n ≠ storagev1.Name stc
    ∧ ¬ (annotation stc isDefaultClassAnnotation = "true" ∧ n = "")
    ∧ has s n = true.
Proof.
  destruct (decide _) as [Hd|Hd]; rewrite ?has_remove; tauto.
Qed.

Lemma AddFunc_matching (stc : storagev1.StorageClass) (s : driverStorageClassesSet) :
  storagev1.Provisioner stc = driverName →
  AddFunc driverName (ObjStorageClass stc) s =
    if decide (annotation stc isDefaultClassAnnotation = "true")
    then add (add s (storagev1.Name stc)) ""
    else add s (storagev1.Name stc).
Proof. intros Hp. unfold AddFunc. by rewrite decide_True. Qed.

Lemma UpdateFunc_matching (oldo : object) (stc : storagev1.StorageClass)
    (s : driverStorageClassesSet) :
  storagev1.Provisioner stc = driverName →
  UpdateFunc driverName oldo (ObjStorageClass stc) s =
    if decide (annotation stc isDefaultClassAnnotation = "true")
    then add (add s (storagev1.Name stc)) ""
    else add s (storagev1.Name stc).
Proof. intros Hp. unfold UpdateFunc. by rewrite decide_True. Qed.

Lemma DeleteFunc_matching (stc : storagev1.StorageClass) (s : driverStorageClassesSet) :
  storagev1.Provisioner stc = driverName →
  DeleteFunc driverName (ObjStorageClass stc) s =
    if decide (annotation stc isDefaultClassAnnotation = "true")
    then remove (remove s (storagev1.Name stc)) ""
    else remove s (storagev1.Name stc).
Proof. intros Hp. unfold DeleteFunc. by rewrite decide_True. Qed.

Lemma AddFunc_keeps (obj : object) (s : driverStorageClassesSet) (n : string) :
  has s n = true → has (AddFunc driverName obj s) n = true.
Proof.
  intros H. destruct obj as [stc|]; [|done]. unfold AddFunc.
  destruct (decide (storagev1.Provisioner stc = driverName)); [|done].
  apply has_inserted. auto.
Qed.

Lemma UpdateFunc_keeps (oldo newo : object) (s : driverStorageClassesSet)
    (n : string) :
  has s n = true → has (UpdateFunc driverName oldo newo s) n = true.
Proof.
  intros H. destruct newo as [stc|]; [|done]. unfold UpdateFunc.
  destruct (decide (storagev1.Provisioner stc = driverName)); [|done].
  apply has_inserted. auto.
Qed.

(** A notification that does not evict [n] leaves [n] in the set. *)
Lemma handleEvent_keeps (ev : event) (s : driverStorageClassesSet) (n : string) :
  evicts driverName n ev = false →
  has s n = true → has (handleEvent driverName s ev) n = true.
Proof.
  intros Hev H. destruct ev as [obj|oldo newo|obj]; simpl.
  - by apply AddFunc_keeps.
  - by apply UpdateFunc_keeps.
  - destruct obj as [stc|]; [|done]. unfold DeleteFunc.
    destruct (decide (storagev1.Provisioner stc = driverName)) as [Hp|Hp]; [|done].
    simpl in Hev. rewrite (bool_decide_eq_true_2 _ Hp) in Hev. simpl in Hev.
    apply orb_false_iff in Hev as [Hname Hdef].
    apply bool_decide_eq_false in Hname.
    apply has_deleted. split; [congruence|]. split; [|done].
    intros [Ha ->]. rewrite (bool_decide_eq_true_2 _ Ha) in Hdef.
    by rewrite bool_decide_eq_true_2 in Hdef.
Qed.

Lemma runWatcher_keeps (evs : list event) (s : driverStorageClassesSet)
    (n : string) :
  Forall (λ ev, evicts driverName n ev = false) evs →
  has s n = true → has (runWatcher driverName evs s) n = true.
Proof.
  unfold runWatcher. intros Hall. revert s.
  induction Hall as [|ev evs Hev _ IH]; intros s H; simpl; [done|].
  apply IH. by apply handleEvent_keeps.
Qed.

(** C3.  An add or update notification whose (new) object is a storage
    class provisioned by the driver inserts the class's name, and inserts
    the empty-string entry as well exactly when the class's
    is-default-class annotation reads "true"; a delete notification for
    such a class removes the name, and removes the empty-string entry as
    well exactly when the annotation reads "true".  Each is stated as the
    calls made and as the membership observed afterwards. *)
Theorem watcher_tracks_driver_classes (stc : storagev1.StorageClass)
    (oldo : object) (s : driverStorageClassesSet) :
  storagev1.Provisioner stc = driverName →
  (AddFunc driverName (ObjStorageClass stc) s =
     (if decide (annotation stc isDefaultClassAnnotation = "true")
      then add (add s (storagev1.Name stc)) ""
      else add s (storagev1.Name stc))
   ∧ UpdateFunc driverName oldo (ObjStorageClass stc) s =
       AddFunc driverName (ObjStorageClass stc) s
   ∧ DeleteFunc driverName (ObjStorageClass stc) s =
       (if decide (annotation stc isDefaultClassAnnotation = "true")
        then remove (remove s (storagev1.Name stc)) ""
        else remove s (storagev1.Name stc)))
  ∧ (∀ n, has (AddFunc driverName (ObjStorageClass stc) s) n = true
          ↔ n = storagev1.Name stc
            ∨ (annotation stc isDefaultClassAnnotation = "true" ∧ n = "")
            ∨ has s n = true)
  ∧ (∀ n, has (DeleteFunc driverName (ObjStorageClass stc) s) n = true
          ↔ n ≠ storagev1.Name stc
            ∧ ¬ (annotation stc isDefaultClassAnnotation = "true" ∧ n = "")
            ∧ has s n = true).
Proof.
  intros Hp. split; [split; [|split] | split].
  - by apply AddFunc_matching.
  - by rewrite UpdateFunc_matching, AddFunc_matching.
  - by apply DeleteFunc_matching.
  - intros n. rewrite AddFunc_matching by done. apply has_inserted.
  - intros n. rewrite DeleteFunc_matching by done. apply has_deleted.
Qed.

(** C4.  An update notification whose new object is a storage class of
    another provisioner leaves the set as it was, so no entry goes away,
    not even the class's own name.  More generally no add or update
    notification ever takes an entry out: only a delete notification
    can. *)
Theorem update_of_foreign_class_changes_nothing
    (newstc : storagev1.StorageClass) (oldo : object)
    (s : driverStorageClassesSet) :
  storagev1.Provisioner newstc ≠ driverName →
  UpdateFunc driverName oldo (ObjStorageClass newstc) s = s
  ∧ (∀ ev n, (∀ obj, ev ≠ DeleteEvent obj) →
             has s n = true → has (handleEvent driverName s ev) n = true).
Proof.
  intros Hp. split.
  - unfold UpdateFunc. by rewrite decide_False.
  - intros ev n Hnd H. apply handleEvent_keeps; [|done].
    destruct ev as [obj|o1 o2|obj]; [done | done |].
    by destruct (Hnd obj).
Qed.

(** C10.  A delete notification for a storage class of another provisioner
    leaves the set as it was, and is never one that evicts an entry.
    Consequently an entry [n] that is in the set stays in it through any
    run of notifications none of which is a delete carrying the driver as
    provisioner for [n]: once the class named [n] is reported with another
    provisioner, its update and its delete both leave the entry in
    place. *)
Theorem delete_of_foreign_class_changes_nothing
    (stc : storagev1.StorageClass) (evs : list event)
    (s : driverStorageClassesSet) (n : string) :
  storagev1.Provisioner stc ≠ driverName →
  Forall (λ ev, evicts driverName n ev = false) evs →
  has s n = true →
  DeleteFunc driverName (ObjStorageClass stc) s = s
  ∧ evicts driverName n (DeleteEvent (ObjStorageClass stc)) = false
  ∧ has (runWatcher driverName evs s) n = true.
Proof.
  intros Hp Hall H. split; [|split].
  - unfold DeleteFunc. by rewrite decide_False.
  - simpl. by rewrite bool_decide_eq_false_2.
  - by apply runWatcher_keeps.
Qed.
End Watcher.

(** ** The admission handler *)

Section Handler.
Context `{Collaborators}.

Import admissionv1.

Lemma Error_status (msg : string) (code : Z) :
  code ≠ 0%Z → http.Status (http.Error http.freshWriter msg code) = code.
Proof.
  intros Hc. unfold http.Error, http.Write, http.WriteHeader. simpl.
  by rewrite decide_False.
Qed.

Lemma Error_written (msg : string) (code : Z) :
  http.Written (http.Error http.freshWriter msg code) = msg +:+ http.lineFeed.
Proof.
  unfold http.Error, http.Write, http.WriteHeader. simpl.
  by destruct (decide (code = 0%Z)).
Qed.

(** The handler up to the point where the pod is decoded. *)
Lemma handler_at_decision (h : handler) (w : http.ResponseWriter)
    (r : http.Request) (admrev : AdmissionReview) (req : AdmissionRequest)
    (pod : corev1.Pod) :
  http.Method r = http.MethodPost →
  jsonDecodeAdmissionReview (http.Body r) = inr admrev →
  Request admrev = Some req →
  Operation req = Create →
  jsonUnmarshalPod (ObjectRaw req) = inr pod →
  handleInjectDriverReadySelector h w r =
    let pod := corev1.setNamespace pod (Namespace req) in
    let '(admresp, h) :=
      if podHasDriverReadyLabelSelectorOrAffinity pod (driverReadyLabel h)
      then (plainAllow req, h)
      else
        let '(uses, s) :=
          podHasCsiGCSVolume pod (driverName h) (CoreV1 (k8sClient h))
            (driverStorageClasses h) in
        if uses
        then (patchedAllow h req, setDriverStorageClasses h s)
        else (plainAllow req, setDriverStorageClasses h s)
    in (Returned (jsonOKResponse w (reviewWith admrev admresp)), h).
Proof.
  intros Hm Hd Hr Ho Hp. unfold handleInjectDriverReadySelector.
  rewrite decide_False by (intros Hne; by apply Hne).
  rewrite Hd, Hr. rewrite decide_False by (intros Hne; by apply Hne).
  rewrite Hp. simpl.
  destruct (podHasDriverReadyLabelSelectorOrAffinity _ _); [done|].
  destruct (podHasCsiGCSVolume _ _ _ _) as [[|] s]; done.
Qed.

(** C1.  A POST whose body decodes to a review with a request, whose
    operation is create and whose object decodes to a pod is answered with
    a review whose response has [Allowed] set; it echoes the request's
    UID, and is either the bare response or the one carrying the handler's
    patch together with the JSON-patch marker. *)
Theorem decision_always_allows (h : handler) (w : http.ResponseWriter)
    (r : http.Request) (admrev : AdmissionReview) (req : AdmissionRequest)
    (pod : corev1.Pod) :
  http.Method r = http.MethodPost →
  jsonDecodeAdmissionReview (http.Body r) = inr admrev →
  Request admrev = Some req →
  Operation req = Create →
  jsonUnmarshalPod (ObjectRaw req) = inr pod →
  ∃ admresp h',
    handleInjectDriverReadySelector h w r =
      (Returned (jsonOKResponse w (reviewWith admrev admresp)), h')
    ∧ Allowed admresp = true
    ∧ (admresp = plainAllow req ∨ admresp = patchedAllow h req).
Proof.
  intros Hm Hd Hr Ho Hp.
  rewrite (handler_at_decision h w r admrev req pod) by done. simpl.
  destruct (podHasDriverReadyLabelSelectorOrAffinity _ _).
  - exists (plainAllow req), h. auto.
  - destruct (podHasCsiGCSVolume _ _ _ _) as [[|] s].
    + exists (patchedAllow h req), (setDriverStorageClasses h s). auto.
    + exists (plainAllow req), (setDriverStorageClasses h s). auto.
Qed.

(** C2.  When the pod, with the namespace of the request filled in, already
    selects nodes by the readiness label, the response is the bare one: no
    patch and no patch type, whatever the volumes of the pod, whatever the
    set holds and whatever [podHasCsiGCSVolume] would answer.  The handler
    is left as it was, so deciding again gives the same answer. *)
Theorem selecting_pod_is_not_patched (h : handler) (w : http.ResponseWriter)
    (r : http.Request) (admrev : AdmissionReview) (req : AdmissionRequest)
    (pod : corev1.Pod) :
  http.Method r = http.MethodPost →
  jsonDecodeAdmissionReview (http.Body r) = inr admrev →
  Request admrev = Some req →
  Operation req = Create →
  jsonUnmarshalPod (ObjectRaw req) = inr pod →
  podHasDriverReadyLabelSelectorOrAffinity
    (corev1.setNamespace pod (Namespace req)) (driverReadyLabel h) = true →
  handleInjectDriverReadySelector h w r =
    (Returned (jsonOKResponse w (reviewWith admrev (plainAllow req))), h)
  ∧ Patch (plainAllow req) = None
  ∧ PatchType (plainAllow req) = None
  ∧ handleInjectDriverReadySelector
      (snd (handleInjectDriverReadySelector h w r)) w r =
    handleInjectDriverReadySelector h w r.
Proof.
  intros Hm Hd Hr Ho Hp Hsel.
  assert (handleInjectDriverReadySelector h w r =
    (Returned (jsonOKResponse w (reviewWith admrev (plainAllow req))), h)) as E.
  { rewrite (handler_at_decision h w r admrev req pod) by done. simpl.
    by rewrite Hsel. }
  rewrite E. simpl. rewrite E. done.
Qed.

(** C6, as the code has it.  A request whose method is not POST is
    answered with status 405 and the text of that status; nothing is
    decoded and the handler is left as it was. *)
Theorem other_method_is_answered_405 (h : handler) (r : http.Request) :
  http.Method r ≠ http.MethodPost →
  ∃ w', handleInjectDriverReadySelector h http.freshWriter r = (Returned w', h)
        ∧ http.Status w' = 405%Z
        ∧ http.Written w' = "Method Not Allowed" +:+ http.lineFeed.
Proof.
  intros Hm. unfold handleInjectDriverReadySelector.
  rewrite decide_True by done. eexists. split; [reflexivity|]. done.
Qed.

(** C7.  A POST whose body does not decode to a review, or decodes to a
    review whose request has an operation other than create, or whose
    object does not decode to a pod, is answered with status 400 and a
    message, and the handler, the set of storage classes included, is left
    as it was. *)
Theorem malformed_review_is_answered_400 (h : handler) (r : http.Request) :
  http.Method r = http.MethodPost →
  ((∃ err, jsonDecodeAdmissionReview (http.Body r) = inl err)
   ∨ (∃ admrev req,
        jsonDecodeAdmissionReview (http.Body r) = inr admrev
        ∧ Request admrev = Some req
        ∧ (Operation req ≠ Create
           ∨ ∃ err, jsonUnmarshalPod (ObjectRaw req) = inl err))) →
  ∃ w' msg,
    handleInjectDriverReadySelector h http.freshWriter r = (Returned w', h)
    ∧ http.Status w' = 400%Z
    ∧ http.Written w' = msg +:+ http.lineFeed
    ∧ msg ≠ ""
    ∧ driverStorageClasses (snd (handleInjectDriverReadySelector h http.freshWriter r))
      = driverStorageClasses h.
Proof.
  intros Hm Hbad. unfold handleInjectDriverReadySelector.
  rewrite decide_False by (intros Hne; by apply Hne).
  destruct Hbad as [[err Hd] | (admrev & req & Hd & Hr & Hbad)].
  - rewrite Hd. eexists _, _. split; [reflexivity|].
    rewrite Error_status, Error_written by done. done.
  - rewrite Hd, Hr.
    destruct (decide (Operation req ≠ Create)) as [Ho|Ho].
    + eexists _, _. split; [reflexivity|].
      rewrite Error_status, Error_written by done. done.
    + destruct Hbad as [Hbad | [err Hp]]; [done|].
      rewrite Hp. eexists _, _. split; [reflexivity|].
      rewrite Error_status, Error_written by done. done.
Qed.

(** The handler returns on every request but a POST whose body decodes to
    a review without a request. *)
Lemma handler_returns_iff (h : handler) (w : http.ResponseWriter)
    (r : http.Request) :
  (∃ w' h', handleInjectDriverReadySelector h w r = (Returned w', h'))
  ↔ ¬ (http.Method r = http.MethodPost
       ∧ ∃ admrev, jsonDecodeAdmissionReview (http.Body r) = inr admrev
                   ∧ Request admrev = None).
Proof.
  unfold handleInjectDriverReadySelector.
  destruct (decide (http.Method r ≠ http.MethodPost)) as [Hm|Hm].
  { split; [intros _ [Hp _]; done | eauto]. }
  apply dec_stable in Hm.
  destruct (jsonDecodeAdmissionReview (http.Body r)) as [err|admrev] eqn:Hd.
  { split; [intros _ (_ & a & [=] & _) | eauto]. }
  destruct (Request admrev) as [req|] eqn:Hr.
  - split.
    + intros _ (_ & a & [= <-] & Hn). congruence.
    + intros _. destruct (decide (Operation req ≠ Create)); [eauto|].
      destruct (jsonUnmarshalPod (ObjectRaw req)); [eauto|].
      destruct (podHasDriverReadyLabelSelectorOrAffinity _ _); [eauto|].
      destruct (podHasCsiGCSVolume _ _ _ _) as [[|] s]; eauto.
  - split.
    + intros (w' & h' & [=]).
    + intros Hn. destruct Hn. eauto.
Qed.

(** C9.  A POST whose body decodes to a review that carries no request
    makes the handler read the operation through a nil pointer: the call
    panics and no response is written, not even a 400.  On every request
    the handler returns exactly when that case is excluded. *)
Theorem review_without_request_panics (h : handler) (w : http.ResponseWriter)
    (r : http.Request) (admrev : AdmissionReview) :
  http.Method r = http.MethodPost →
  jsonDecodeAdmissionReview (http.Body r) = inr admrev →
  Request admrev = None →
  handleInjectDriverReadySelector h w r = (Panicked, h)
  ∧ (∀ w' h', handleInjectDriverReadySelector h w r ≠ (Returned w', h'))
  ∧ (∀ r2,
       (∃ w' h', handleInjectDriverReadySelector h w r2 = (Returned w', h'))
       ↔ ¬ (http.Method r2 = http.MethodPost
            ∧ ∃ admrev2, jsonDecodeAdmissionReview (http.Body r2) = inr admrev2
                         ∧ Request admrev2 = None)).
Proof.
  intros Hm Hd Hr.
  assert (handleInjectDriverReadySelector h w r = (Panicked, h)) as E.
  { unfold handleInjectDriverReadySelector.
    rewrite decide_False by (intros Hne; by apply Hne).
    by rewrite Hd, Hr. }
  split; [exact E|]. split.
  - intros w' h'. rewrite E. discriminate.
  - intros r2. apply handler_returns_iff.
Qed.
End Handler.

(** ** The properties at work on the sample cluster *)

Section Samples.
Import Fixture.

(** A default class of the driver named [fast] is added: the empty-string
    entry is in the set afterwards. *)
Lemma watcher_tracks_driver_classes_witness :
  storagev1.Provisioner fast = sampleDriverName
  ∧ has (AddFunc sampleDriverName (ObjStorageClass fast)
           newDriverStorageClassesSet) "" = true.
Proof.
  split; [reflexivity|].
  destruct (watcher_tracks_driver_classes sampleDriverName fast ObjOther
              newDriverStorageClassesSet eq_refl) as (_ & Hadd & _).
  apply Hadd. right; left. split; reflexivity.
Defined.

(** [fast] is in the set and is then updated with another provisioner. *)
Lemma update_of_foreign_class_changes_nothing_witness :
  storagev1.Provisioner fastElsewhere ≠ sampleDriverName
  ∧ UpdateFunc sampleDriverName (ObjStorageClass fast)
      (ObjStorageClass fastElsewhere)
      (add newDriverStorageClassesSet "fast")
    = add newDriverStorageClassesSet "fast".
Proof.
  assert (storagev1.Provisioner fastElsewhere ≠ sampleDriverName) as Hp
    by discriminate.
  split; [exact Hp|].
  apply (update_of_foreign_class_changes_nothing sampleDriverName
           fastElsewhere (ObjStorageClass fast) _ Hp).
Defined.

(** [fast] is added as a class of the driver, then updated and deleted
    with another provisioner: it is still in the set. *)
Lemma delete_of_foreign_class_changes_nothing_witness :
  storagev1.Provisioner fastElsewhere ≠ sampleDriverName
  ∧ has (runWatcher sampleDriverName
           [UpdateEvent (ObjStorageClass fast) (ObjStorageClass fastElsewhere);
            DeleteEvent (ObjStorageClass fastElsewhere)]
           (AddFunc sampleDriverName (ObjStorageClass fast)
              newDriverStorageClassesSet)) "fast" = true.
Proof.
  assert (storagev1.Provisioner fastElsewhere ≠ sampleDriverName) as Hp
    by discriminate.
  split; [exact Hp|].
  apply (delete_of_foreign_class_changes_nothing sampleDriverName
           fastElsewhere _ _ "fast" Hp).
  - repeat constructor.
  - reflexivity.
Defined.

(** A create request for the pod whose claim names a class of the set. *)
Lemma decision_always_allows_witness :
  ∃ admresp h',
    handleInjectDriverReadySelector (sampleHandler standardOnly)
      http.freshWriter (post "create plain") =
      (Returned (jsonOKResponse http.freshWriter
                   (reviewWith (reviewOf "CREATE" "plain") admresp)), h')
    ∧ admissionv1.Allowed admresp = true
    ∧ (admresp = plainAllow (requestOf "CREATE" "plain")
       ∨ admresp = patchedAllow (sampleHandler standardOnly)
                     (requestOf "CREATE" "plain")).
Proof.
  apply (decision_always_allows (sampleHandler standardOnly) http.freshWriter
           (post "create plain") (reviewOf "CREATE" "plain")
           (requestOf "CREATE" "plain") plainPod);
    reflexivity.
Defined.

(** A create request for the pod that already selects nodes by the label,
    although its claim names a class of the set. *)
Lemma selecting_pod_is_not_patched_witness :
  handleInjectDriverReadySelector (sampleHandler standardOnly)
    http.freshWriter (post "create selecting") =
    (Returned (jsonOKResponse http.freshWriter
                 (reviewWith (reviewOf "CREATE" "selecting")
                    (plainAllow (requestOf "CREATE" "selecting")))),
     sampleHandler standardOnly).
Proof.
  apply (selecting_pod_is_not_patched (sampleHandler standardOnly)
           http.freshWriter (post "create selecting")
           (reviewOf "CREATE" "selecting")
           (requestOf "CREATE" "selecting") selectingPod);
    reflexivity.
Defined.

(** C6, as the spec has it, fails on a GET: the answer is 405, not 400. *)
Lemma get_is_not_answered_400 :
  http.Method get ≠ http.MethodPost
  ∧ ∃ w', handleInjectDriverReadySelector
            (sampleHandler newDriverStorageClassesSet) http.freshWriter get
          = (Returned w', sampleHandler newDriverStorageClassesSet)
          ∧ http.Status w' = 405%Z
          ∧ http.Status w' ≠ 400%Z.
Proof.
  split; [discriminate|].
  eexists. split; [reflexivity|]. split; [reflexivity | discriminate].
Defined.

Lemma other_method_is_answered_405_witness :
  http.Method get ≠ http.MethodPost
  ∧ ∃ w', handleInjectDriverReadySelector
            (sampleHandler newDriverStorageClassesSet) http.freshWriter get
          = (Returned w', sampleHandler newDriverStorageClassesSet)
          ∧ http.Status w' = 405%Z
          ∧ http.Written w' = "Method Not Allowed" +:+ http.lineFeed.
Proof.
  assert (http.Method get ≠ http.MethodPost) as Hm by discriminate.
  split; [exact Hm|].
  apply (other_method_is_answered_405
           (sampleHandler newDriverStorageClassesSet) get Hm).
Defined.

(** A POST whose body is not JSON. *)
Lemma malformed_review_is_answered_400_witness :
  http.Method (post "not json") = http.MethodPost
  ∧ ∃ w' msg,
      handleInjectDriverReadySelector (sampleHandler standardOnly)
        http.freshWriter (post "not json")
      = (Returned w', sampleHandler standardOnly)
      ∧ http.Status w' = 400%Z
      ∧ http.Written w' = msg +:+ http.lineFeed
      ∧ msg ≠ ""
      ∧ driverStorageClasses
          (snd (handleInjectDriverReadySelector (sampleHandler standardOnly)
                  http.freshWriter (post "not json")))
        = standardOnly.
Proof.
  split; [reflexivity|].
  apply (malformed_review_is_answered_400 (sampleHandler standardOnly)
           (post "not json") eq_refl).
  left. exists "invalid character". reflexivity.
Defined.

(** A POST whose body is the empty JSON object. *)
Lemma review_without_request_panics_witness :
  handleInjectDriverReadySelector (sampleHandler standardOnly)
    http.freshWriter (post "{}")
  = (Panicked, sampleHandler standardOnly).
Proof.
  apply (review_without_request_panics (sampleHandler standardOnly)
           http.freshWriter (post "{}") emptyReview);
    reflexivity.
Defined.
End Samples.

(** ** Goroutines sharing the set: mutual exclusion, and how the handler
       loses it *)

Section Goroutines.
Import Interleaving.

Lemma tally_insert (f : list instr → bool) (codes : list (list instr))
    (g : nat) (c c' : list instr) :
  codes !! g = Some c →
  tally f (<[g := c']> codes) + (if f c then 1 else 0)
  = tally f codes + (if f c' then 1 else 0).
Proof.
  revert g. induction codes as [|d codes IH]; intros g Hg; [done|].
  destruct g as [|g]; simpl in *.
  - injection Hg as ->. lia.
  - specialize (IH g Hg). lia.
Qed.

Lemma tally_lookup (f : list instr → bool) (codes : list (list instr))
    (g : nat) (c : list instr) :
  codes !! g = Some c → f c = true → (1 ≤ tally f codes)%nat.
Proof.
  revert g. induction codes as [|d codes IH]; intros g Hg Hf; [done|].
  destruct g as [|g]; simpl in *.
  - injection Hg as ->. rewrite Hf. lia.
  - specialize (IH g Hg Hf). lia.
Qed.

Lemma tally_lookup2 (f : list instr → bool) (codes : list (list instr))
    (g1 g2 : nat) (c1 c2 : list instr) :
  g1 ≠ g2 → codes !! g1 = Some c1 → codes !! g2 = Some c2 →
  f c1 = true → f c2 = true → f [] = false → (2 ≤ tally f codes)%nat.
Proof.
  intros Hne H1 H2 Hf1 Hf2 Hnil.
  pose proof (tally_insert f codes g1 c1 [] H1) as E.
  rewrite Hf1, Hnil in E.
  assert (<[g1 := []]> codes !! g2 = Some c2) as H2'
    by by rewrite list_lookup_insert_ne.
  pose proof (tally_lookup f _ g2 c2 H2' Hf2). lia.
Qed.

Lemma tally_none (f : list instr → bool) (codes : list (list instr)) :
  Forall (λ c, f c = false) codes → tally f codes = 0.
Proof. induction 1 as [|c codes Hc _ IH]; simpl; [done|]. by rewrite Hc, IH. Qed.

(** What one instruction of a run of calls tells about the rest. *)
Lemma callsOnHandlerSet_cons (i : instr) (rest : list instr) :
  callsOnHandlerSet (i :: rest) = true →
  callsOnHandlerSet rest = true
  ∧ match i with
    | CopySet _ => False
    | Lock m => m = handlerMutex ∧ holdsWrite rest = true ∧ holdsRead rest = false
    | MapStore _ | MapDelete _ => holdsWrite rest = true ∧ holdsRead rest = false
    | RLock m => m = handlerMutex ∧ holdsWrite rest = false ∧ holdsRead rest = true
    | MapLoad _ => holdsWrite rest = false ∧ holdsRead rest = true
    | Unlock m | RUnlock m =>
        m = handlerMutex ∧ holdsWrite rest = false ∧ holdsRead rest = false
    end.
Proof.
  unfold callsOnHandlerSet.
  destruct i; destruct rest as [|[] rest]; simpl; try done;
    rewrite ?andb_true_iff, ?Nat.eqb_eq; intuition congruence.
Qed.
(** A step of a goroutine that runs the methods on the handler's set keeps
    the accounting. *)
Lemma step_guarded (st st' : machine) (g : nat) :
  guarded st → step st g = Some st' → guarded st'.
Proof.
  intros (m & Hmu & Hall & Hw & Hr & Hex) Hstep.
  unfold step in Hstep.
  destruct (goroutines st !! g) as [[|i rest]|] eqn:Hg; try done.
  pose proof (Forall_lookup_1 _ _ _ _ Hall Hg) as Hc. simpl in Hc.
  apply callsOnHandlerSet_cons in Hc as [Hrest Hi].
  pose proof (tally_insert holdsWrite _ g _ rest Hg) as Tw.
  pose proof (tally_insert holdsRead _ g _ rest Hg) as Tr.
  assert (Forall (λ c, callsOnHandlerSet c = true) (<[g := rest]> (goroutines st)))
    as Hall' by by apply Forall_insert.
  destruct i; simpl in Hi; try done;
    repeat match goal with H : _ ∧ _ |- _ => destruct H end; subst;
    simpl in Hstep; rewrite ?Hmu in Hstep; simpl in Hstep;
    simpl in Tw, Tr;
    repeat match goal with H : holdsWrite rest = _ |- _ => rewrite H in Tw; clear H end;
    repeat match goal with H : holdsRead rest = _ |- _ => rewrite H in Tr; clear H end.
  all: destruct (writerHeld m) eqn:Hwh; destruct (readerCount m) eqn:Hrc;
    simplify_eq; unfold guarded; simpl.
  all: try (specialize (Hex eq_refl); discriminate).
  all: eexists; (split; [first [apply lookup_insert_eq | exact Hmu] |]);
    simpl; rewrite ?Hwh, ?Hrc;
    (split; [exact Hall' |]); repeat split; try lia; try done.
Qed.

Lemma run_guarded (schedule : list nat) (st st' : machine) :
  guarded st → run schedule st = Some st' → guarded st'.
Proof.
  revert st. induction schedule as [|g schedule IH]; intros st Hst Hrun;
    simpl in Hrun.
  - by injection Hrun as <-.
  - destruct (step st g) as [st1|] eqn:Hstep; [|done].
    eapply IH; [|exact Hrun]. by eapply step_guarded.
Qed.

Lemma nextInstr_lookup (st : machine) (g : nat) (i : instr) :
  nextInstr st g = Some i → ∃ rest, goroutines st !! g = Some (i :: rest).
Proof.
  unfold nextInstr. destruct (goroutines st !! g) as [[|j rest]|]; simpl;
    intros [=]. subst. by exists rest.
Qed.

(** Under the accounting no two goroutines are at the map together when
    one of them writes. *)
Lemma guarded_no_race (st : machine) : guarded st → ¬ dataRace st.
Proof.
  intros (m & Hmu & Hall & Hw & Hr & Hex)
         (g1 & g2 & i1 & i2 & Hne & H1 & H2 & Hw1 & Ha2).
  apply nextInstr_lookup in H1 as [r1 H1].
  apply nextInstr_lookup in H2 as [r2 H2].
  assert (holdsWrite (i1 :: r1) = true) as Hh1 by by destruct i1.
  pose proof (tally_lookup holdsWrite _ _ _ H1 Hh1) as T1.
  destruct (writerHeld m) eqn:Hwh; [|lia].
  specialize (Hex eq_refl).
  destruct (mapWrite i2) eqn:Hw2.
  - assert (holdsWrite (i2 :: r2) = true) as Hh2 by by destruct i2.
    pose proof (tally_lookup2 holdsWrite _ _ _ _ _ Hne H1 H2 Hh1 Hh2 eq_refl).
    lia.
  - assert (holdsRead (i2 :: r2) = true) as Hh2 by by destruct i2.
    pose proof (tally_lookup holdsRead _ _ _ H2 Hh2). lia.
Qed.

Lemma boot_guarded (codes : list (list instr)) :
  Forall (λ c, callsOnHandlerSet c = true) codes →
  Forall (λ c, sectionOf c = Outside) codes →
  guarded (boot codes).
Proof.
  intros Hall Hout. exists zeroRWMutex. simpl.
  split; [apply lookup_singleton_eq|]. split; [exact Hall|].
  split; [|split; [|done]].
  - apply tally_none. eapply Forall_impl; [exact Hout|].
    intros [|[] c]; simpl; congruence.
  - apply tally_none. eapply Forall_impl; [exact Hout|].
    intros [|[] c]; simpl; congruence.
Qed.

Lemma watcherCode_calls (ops : list setOp) :
  callsFrom Outside (watcherCode ops) = true.
Proof. induction ops as [|[n|n] ops IH]; simpl; auto. Qed.

Lemma watcherCode_outside (ops : list setOp) :
  sectionOf (watcherCode ops) = Outside.
Proof. by destruct ops as [|[n|n] ops]. Qed.

(** X15.  Were every goroutine to call the methods on the handler's own set,
    the informer through [watcherCode] and any number of requests through
    [requestCodeByPointer], no schedule would lead to a race on the map:
    the methods of [storageclasses.go] exclude one another. *)
Lemma methods_on_one_set_never_race (ops : list setOp) (names : list string)
    (schedule : list nat) (st : machine) :
  run schedule (boot (watcherCode ops :: map requestCodeByPointer names))
    = Some st →
  ¬ dataRace st.
Proof.
  intros Hrun. apply guarded_no_race. eapply run_guarded; [|exact Hrun].
  apply boot_guarded.
  - constructor.
    + unfold callsOnHandlerSet. rewrite watcherCode_outside.
      apply watcherCode_calls.
    + apply Forall_map. by apply Forall_true.
  - constructor; [apply watcherCode_outside|].
    apply Forall_map. by apply Forall_true.
Qed.

(** Run on its own from an unlocked mutex, the code of [add] and of
    [remove] does to the map what the sequential methods do, and leaves the
    mutex unlocked. *)
Lemma mutating_call_alone (o : setOp) (s : driverStorageClassesSet) :
  ∃ st,
    run [0; 0; 0]
      {| mutexes := {[ handlerMutex := zeroRWMutex ]};
         sharedMap := classes s;
         goroutines := [opCode o] |} = Some st
    ∧ sharedMap st = classes (applyOp s o)
    ∧ mutexes st !! handlerMutex = Some zeroRWMutex
    ∧ goroutines st = [[]].
Proof.
  destruct o as [n|n]; simpl; unfold step; simpl;
    rewrite lookup_singleton_eq; simpl; rewrite lookup_insert_eq; simpl;
    eexists; (split; [reflexivity|]); simpl;
    (split; [done|]); (split; [apply lookup_insert_eq | done]).
Qed.

(** C8, on the code as written.  One request goroutine and the informer
    adding a class: the request copies the handler's set into the argument
    of [podHasCsiGCSVolume], the informer write-locks the handler's mutex,
    the request read-locks the mutex of its copy.  Both locks are granted,
    and the store into the map and the load from it are then both due: a
    data race. *)
Theorem request_on_copied_set_races :
  ∃ st,
    run [1; 0; 1]
      (boot [watcherCode [OpAdd "standard"]; requestCode 1 "standard"])
      = Some st
    ∧ nextInstr st 0 = Some (MapStore "standard")
    ∧ nextInstr st 1 = Some (MapLoad "standard")
    ∧ dataRace st.
Proof.
  eexists. split; [vm_compute; reflexivity|].
  split; [reflexivity|]. split; [reflexivity|].
  exists 0, 1, (MapStore "standard"), (MapLoad "standard").
  repeat split; done.
Qed.

(** The copy has a second effect: taken while the informer holds the write
    lock, it is a mutex nobody will ever unlock, and the request cannot
    move even after the informer is done. *)
Lemma request_on_copied_set_can_block :
  ∃ st,
    run [0; 1; 0; 0]
      (boot [watcherCode [OpAdd "standard"]; requestCode 1 "standard"])
      = Some st
    ∧ goroutines st !! 0 = Some []
    ∧ step st 1 = None.
Proof. eexists. split; [vm_compute; reflexivity|]. split; reflexivity. Qed.
End Goroutines.

(** * Further properties of the code *)

(** ** The set, one name at a time *)

Lemma set_ext (s t : driverStorageClassesSet) :
  (∀ n, has s n = has t n) → s = t.
Proof.
  intros Hst. apply set_eq. apply map_eq. intros n. specialize (Hst n).
  unfold has in Hst.
  destruct (classes s !! n) as [[]|], (classes t !! n) as [[]|];
    first [reflexivity | discriminate].
Qed.

Lemma has_add_eq (s : driverStorageClassesSet) (n k : string) :
  has (add s n) k = if decide (k = n) then true else has s k.
Proof.
  unfold has, add; simpl. destruct (decide (k = n)) as [->|Hne].
  - by rewrite lookup_insert_eq.
  - by rewrite lookup_insert_ne.
Qed.

Lemma has_remove_eq (s : driverStorageClassesSet) (n k : string) :
  has (remove s n) k = if decide (k = n) then false else has s k.
Proof.
  unfold has, remove; simpl. destruct (decide (k = n)) as [->|Hne].
  - by rewrite lookup_delete_eq.
  - by rewrite lookup_delete_ne.
Qed.

(** Rewrites membership after any nest of [add] and [remove] calls into a
    case analysis on the names, and decides it. *)
Ltac set_cases :=
  repeat (rewrite has_add_eq || rewrite has_remove_eq);
  repeat case_decide; subst; try done; try congruence.

(** X1.  [add] and [remove] change the answer of [has] for the one name
    they are given and for no other: after [add s n] the name [n] is
    present, after [remove s n] it is absent, and every other name is
    present exactly when it was before. *)
Theorem set_operations_touch_one_name (s : driverStorageClassesSet)
    (n k : string) :
  has (add s n) n = true
  ∧ has (remove s n) n = false
  ∧ has (add s n) k = (if decide (k = n) then true else has s k)
  ∧ has (remove s n) k = (if decide (k = n) then false else has s k).
Proof.
  split; [by set_cases|]. split; [by set_cases|].
  split; [apply has_add_eq | apply has_remove_eq].
Qed.

(** X2.  How the two mutating methods compose.  On one name the later call
    wins: [remove] after [add] is [remove], [add] after [remove] is [add].
    On two different names the calls commute, whatever their kinds. *)
Theorem set_operations_compose (s : driverStorageClassesSet) (n k : string) :
  n ≠ k →
  remove (add s n) n = remove s n
  ∧ add (remove s n) n = add s n
  ∧ add (add s n) k = add (add s k) n
  ∧ remove (remove s n) k = remove (remove s k) n
  ∧ remove (add s n) k = add (remove s k) n.
Proof.
  intros Hne. repeat split; apply set_ext; intros x; set_cases.
Qed.

(** ** The class watcher, notification by notification *)

Section WatcherComposition.
Variable driverName : string.

Lemma applyOps_app (ops1 ops2 : list setOp) (s : driverStorageClassesSet) :
  applyOps (ops1 ++ ops2) s = applyOps ops2 (applyOps ops1 s).
Proof. unfold applyOps. apply fold_left_app. Qed.

Lemma handleEvent_ops (ev : event) (s : driverStorageClassesSet) :
  handleEvent driverName s ev = applyOps (eventOps driverName ev) s.
Proof.
  destruct ev as [[stc|]|oldo [stc|]|[stc|]]; simpl; try done;
    unfold AddFunc, UpdateFunc, DeleteFunc, insertCalls, deleteCalls;
    destruct (decide (storagev1.Provisioner stc = driverName)); try done;
    destruct (decide (annotation stc isDefaultClassAnnotation = "true")); done.
Qed.

Lemma has_handleEvent (ev : event) (s : driverStorageClassesSet) (n : string) :
  has (handleEvent driverName s ev) n = true →
  has s n = true ∨ inserts driverName n ev = true.
Proof.
  destruct ev as [[stc|]|oldo [stc|]|[stc|]]; simpl; auto;
    unfold AddFunc, UpdateFunc, DeleteFunc;
    destruct (decide (storagev1.Provisioner stc = driverName)) as [Hp|Hp]; auto.
  1,2: rewrite has_inserted; intros [->|[[Hd ->]|Hs]]; auto; right;
    rewrite (bool_decide_eq_true_2 _ Hp); simpl;
    [ by rewrite bool_decide_eq_true_2
    | rewrite (bool_decide_eq_true_2 _ Hd); simpl; apply orb_true_r ].
  rewrite has_deleted. intros (_ & _ & Hs). auto.
Qed.

(** X3.  An object that is not a storage class of the driver, be it some
    other kind of object or a class of another provisioner, changes nothing
    whichever callback receives it. *)
Theorem foreign_object_changes_nothing (obj oldo : object)
    (s : driverStorageClassesSet) :
  (∀ stc, obj = ObjStorageClass stc → storagev1.Provisioner stc ≠ driverName) →
  AddFunc driverName obj s = s
  ∧ UpdateFunc driverName oldo obj s = s
  ∧ DeleteFunc driverName obj s = s.
Proof.
  intros Hf. destruct obj as [stc|]; [|done].
  specialize (Hf stc eq_refl).
  unfold AddFunc, UpdateFunc, DeleteFunc.
  by destruct (decide (storagev1.Provisioner stc = driverName)).
Qed.

(** X4.  Delivering a notification twice in a row leaves the set as one
    delivery does, for every kind of notification and every object. *)
Theorem duplicate_notification_changes_nothing (ev : event)
    (s : driverStorageClassesSet) :
  handleEvent driverName (handleEvent driverName s ev) ev
  = handleEvent driverName s ev.
Proof.
  destruct ev as [[stc|]|oldo [stc|]|[stc|]]; simpl; try done;
    unfold AddFunc, UpdateFunc, DeleteFunc;
    destruct (decide (storagev1.Provisioner stc = driverName)); try done;
    destruct (decide (annotation stc isDefaultClassAnnotation = "true"));
    apply set_ext; intros x; set_cases.
Qed.

(** X5.  Of an add (or update) and a delete that carry the same object, the
    later one decides: deleting after adding leaves the set as deleting
    alone does, and adding after deleting as adding alone. *)
Theorem later_notification_wins (obj oldo : object)
    (s : driverStorageClassesSet) :
  DeleteFunc driverName obj (AddFunc driverName obj s)
    = DeleteFunc driverName obj s
  ∧ DeleteFunc driverName obj (UpdateFunc driverName oldo obj s)
    = DeleteFunc driverName obj s
  ∧ AddFunc driverName obj (DeleteFunc driverName obj s)
    = AddFunc driverName obj s.
Proof.
  destruct obj as [stc|]; [|done].
  unfold AddFunc, UpdateFunc, DeleteFunc.
  destruct (decide (storagev1.Provisioner stc = driverName)); [|done].
  destruct (decide (annotation stc isDefaultClassAnnotation = "true"));
    repeat split; apply set_ext; intros x; set_cases.
Qed.

(** X6.  The watcher is the set driven by the calls its notifications
    cause: running it over [evs] is applying the calls of each notification
    in order.  So, from the empty set of [NewServer], a name is present
    afterwards exactly when the last call that mentions it, among the calls
    of all the notifications, is an [add]. *)
Theorem watcher_is_calls_in_order (evs : list event)
    (s : driverStorageClassesSet) (n : string) :
  runWatcher driverName evs s
    = applyOps (flat_map (eventOps driverName) evs) s
  ∧ (has (runWatcher driverName evs newDriverStorageClassesSet) n = true
     ↔ lastMentionIsAdd (flat_map (eventOps driverName) evs) n).
Proof.
  assert (∀ t, runWatcher driverName evs t
               = applyOps (flat_map (eventOps driverName) evs) t) as E.
  { unfold runWatcher. induction evs as [|ev evs IH]; intros t; simpl; [done|].
    rewrite applyOps_app, <- handleEvent_ops. apply IH. }
  split; [apply E|]. rewrite E. apply has_applyOps.
Qed.

(** X7.  The watcher never makes up a name: a name present after a run of
    notifications was present before, or some add or update notification
    of the run carried a class of the driver with that name (or, for the
    empty string, one annotated as the default class).  A class of another
    provisioner never gets its name into the set. *)
Theorem watcher_inserts_only_driver_classes (evs : list event)
    (s : driverStorageClassesSet) (n : string) :
  has (runWatcher driverName evs s) n = true →
  has s n = true ∨ Exists (λ ev, inserts driverName n ev = true) evs.
Proof.
  unfold runWatcher. revert s.
  induction evs as [|ev evs IH]; intros s H; simpl in H; [by left|].
  destruct (IH _ H) as [Hs|Hex].
  - destruct (has_handleEvent ev s n Hs) as [Hs'|Hi]; [by left|].
    right. by constructor.
  - right. by constructor.
Qed.

(** X8.  The empty-string entry is not counted per class.  With two classes
    of the driver in the set, both annotated as the default class, the
    delete of one takes the entry away although the other is still there
    by name. *)
Theorem default_entry_is_shared (a b : storagev1.StorageClass)
    (s : driverStorageClassesSet) :
  storagev1.Provisioner a = driverName →
  storagev1.Provisioner b = driverName →
  annotation a isDefaultClassAnnotation = "true" →
  annotation b isDefaultClassAnnotation = "true" →
  storagev1.Name b ≠ storagev1.Name a →
  storagev1.Name b ≠ "" →
  has (DeleteFunc driverName (ObjStorageClass a)
         (AddFunc driverName (ObjStorageClass b)
            (AddFunc driverName (ObjStorageClass a) s)))
      (storagev1.Name b) = true
  ∧ has (DeleteFunc driverName (ObjStorageClass a)
           (AddFunc driverName (ObjStorageClass b)
              (AddFunc driverName (ObjStorageClass a) s)))
        "" = false.
Proof.
  intros Hpa Hpb Hda Hdb Hne Hne'. unfold AddFunc, DeleteFunc.
  rewrite !decide_True by done. split; set_cases.
Qed.
End WatcherComposition.

(** ** The handlers, response by response *)

Section HandlerResponses.
Context `{Collaborators}.

Import admissionv1.

(** What [http.Error] leaves in a writer that had nothing written. *)
Lemma Error_fresh (msg : string) (code : Z) :
  code ≠ 0%Z →
  http.Error http.freshWriter msg code =
    {| http.Header :=
         <["X-Content-Type-Options" := "nosniff"]>
           (<["Content-Type" := "text/plain; charset=utf-8"]> ∅);
       http.Status := code;
       http.Written := msg +:+ http.lineFeed |}.
Proof.
  intros Hc. unfold http.Error, http.Write, http.WriteHeader. simpl.
  by rewrite decide_False.
Qed.

Lemma setDriverStorageClasses_same (h : handler) :
  setDriverStorageClasses h (driverStorageClasses h) = h.
Proof. by destruct h. Qed.

(** X9.  The whole decision on a well-formed create request.  A pod that
    already selects nodes by the readiness label gets the bare response, and
    [podHasCsiGCSVolume] is not consulted; otherwise the patch and the
    JSON-patch marker are attached exactly when [podHasCsiGCSVolume]
    answers true.  Both predicates see the pod with the namespace of the
    request, not its own. *)
Theorem patch_is_attached_exactly_when_needed (h : handler)
    (w : http.ResponseWriter) (r : http.Request) (admrev : AdmissionReview)
    (req : AdmissionRequest) (pod : corev1.Pod) :
  http.Method r = http.MethodPost →
  jsonDecodeAdmissionReview (http.Body r) = inr admrev →
  Request admrev = Some req →
  Operation req = Create →
  jsonUnmarshalPod (ObjectRaw req) = inr pod →
  fst (handleInjectDriverReadySelector h w r) =
    Returned
      (jsonOKResponse w
         (reviewWith admrev
            (if podHasDriverReadyLabelSelectorOrAffinity
                  (corev1.setNamespace pod (Namespace req)) (driverReadyLabel h)
             then plainAllow req
             else if fst (podHasCsiGCSVolume
                            (corev1.setNamespace pod (Namespace req))
                            (driverName h) (CoreV1 (k8sClient h))
                            (driverStorageClasses h))
                  then patchedAllow h req
                  else plainAllow req)))
  ∧ snd (handleInjectDriverReadySelector h w r) =
      (if podHasDriverReadyLabelSelectorOrAffinity
            (corev1.setNamespace pod (Namespace req)) (driverReadyLabel h)
       then h
       else setDriverStorageClasses h
              (snd (podHasCsiGCSVolume
                      (corev1.setNamespace pod (Namespace req))
                      (driverName h) (CoreV1 (k8sClient h))
                      (driverStorageClasses h)))).
Proof.
  intros Hm Hd Hr Ho Hp.
  rewrite (handler_at_decision h w r admrev req pod) by done. simpl.
  destruct (podHasDriverReadyLabelSelectorOrAffinity _ _); [done|].
  by destruct (podHasCsiGCSVolume _ _ _ _) as [[|] s].
Qed.

(** X10.  What [jsonOKResponse] sends through a writer that had nothing
    written.  When the review encodes: status 200, the JSON content type,
    the encoding as the body.  When it does not: status 500, the plain-text
    headers of [http.Error], and a message that ends with the encoder's. *)
Theorem jsonOKResponse_sends_200_or_500 (rsp : AdmissionReview) :
  jsonOKResponse http.freshWriter rsp =
    match jsonMarshalAdmissionReview rsp with
    | inr bts =>
        {| http.Header := {[ "Content-Type" := "application/json" ]};
           http.Status := 200;
           http.Written := bts |}
    | inl err =>
        {| http.Header :=
             <["X-Content-Type-Options" := "nosniff"]>
               (<["Content-Type" := "text/plain; charset=utf-8"]> ∅);
           http.Status := 500;
           http.Written :=
             "unable to encode response: " +:+ err +:+ http.lineFeed |}
    end.
Proof.
  unfold jsonOKResponse.
  destruct (jsonMarshalAdmissionReview rsp) as [err|bts].
  - by rewrite Error_fresh.
  - unfold http.Write, http.WriteHeader, http.HeaderSet. simpl.
    by rewrite insert_empty.
Qed.

(** X11.  The admission handler never answers with a status other than
    200, 400, 405 and 500.  200 comes with the JSON content type, the others
    with the plain-text one. *)
Theorem handler_status_is_one_of_four (h : handler) (r : http.Request)
    (w' : http.ResponseWriter) :
  fst (handleInjectDriverReadySelector h http.freshWriter r) = Returned w' →
  (http.Status w' = 200%Z
   ∧ http.Header w' !! "Content-Type" = Some "application/json")
  ∨ ((http.Status w' = 400%Z ∨ http.Status w' = 405%Z ∨ http.Status w' = 500%Z)
     ∧ http.Header w' !! "Content-Type" = Some "text/plain; charset=utf-8").
Proof.
  assert (∀ rsp, (http.Status (jsonOKResponse http.freshWriter rsp) = 200%Z
      ∧ http.Header (jsonOKResponse http.freshWriter rsp) !! "Content-Type"
        = Some "application/json")
    ∨ ((http.Status (jsonOKResponse http.freshWriter rsp) = 400%Z
        ∨ http.Status (jsonOKResponse http.freshWriter rsp) = 405%Z
        ∨ http.Status (jsonOKResponse http.freshWriter rsp) = 500%Z)
       ∧ http.Header (jsonOKResponse http.freshWriter rsp) !! "Content-Type"
         = Some "text/plain; charset=utf-8")) as Hjson.
  { intros rsp. unfold jsonOKResponse.
    destruct (jsonMarshalAdmissionReview rsp) as [err|bts].
    - right. rewrite Error_fresh by done. simpl. split; [auto|done].
    - left. split; [done|]. simpl. apply lookup_insert_eq. }
  unfold handleInjectDriverReadySelector.
  destruct (decide (http.Method r ≠ http.MethodPost)).
  { simpl. intros [= <-]. right. rewrite Error_fresh by done. simpl.
    split; [auto|done]. }
  destruct (jsonDecodeAdmissionReview (http.Body r)) as [err|admrev].
  { simpl. intros [= <-]. right. rewrite Error_fresh by done. simpl.
    split; [auto|done]. }
  destruct (Request admrev) as [req|]; [|discriminate].
  destruct (decide (Operation req ≠ Create)).
  { simpl. intros [= <-]. right. rewrite Error_fresh by done. simpl.
    split; [auto|done]. }
  destruct (jsonUnmarshalPod (ObjectRaw req)) as [err|pod].
  { simpl. intros [= <-]. right. rewrite Error_fresh by done. simpl.
    split; [auto|done]. }
  destruct (podHasDriverReadyLabelSelectorOrAffinity _ _).
  { simpl. intros [= <-]. apply Hjson. }
  destruct (podHasCsiGCSVolume _ _ _ _) as [[|] s];
    simpl; intros [= <-]; apply Hjson.
Qed.

(** X12.  The request path does not write the set unless
    [podHasCsiGCSVolume] does: with a callee that leaves the set it is
    handed as it found it, the handler after any request, answered or
    panicked, is the handler before. *)
Theorem handler_only_reads_the_set (h : handler) (w : http.ResponseWriter)
    (r : http.Request) :
  (∀ pod name client s, snd (podHasCsiGCSVolume pod name client s) = s) →
  snd (handleInjectDriverReadySelector h w r) = h.
Proof.
  intros Hread. unfold handleInjectDriverReadySelector.
  destruct (decide (http.Method r ≠ http.MethodPost)); [done|].
  destruct (jsonDecodeAdmissionReview (http.Body r)) as [err|admrev]; [done|].
  destruct (Request admrev) as [req|]; [|done].
  destruct (decide (Operation req ≠ Create)); [done|].
  destruct (jsonUnmarshalPod (ObjectRaw req)) as [err|pod]; [done|].
  destruct (podHasDriverReadyLabelSelectorOrAffinity _ _); [done|].
  destruct (podHasCsiGCSVolume _ _ _ _) as [uses s] eqn:Hcall.
  pose proof (Hread (corev1.setNamespace pod (Namespace req)) (driverName h)
                (CoreV1 (k8sClient h)) (driverStorageClasses h)) as Hs.
  rewrite Hcall in Hs. simpl in Hs. subst s.
  destruct uses; simpl; apply setDriverStorageClasses_same.
Qed.

(** X13.  The liveness handler answers 200 with the body OK whatever the
    method and the body of the request and whatever the set holds; it sets
    no header and leaves the handler as it was.  On a writer that has
    written nothing yet but holds headers and buffered bytes, those are
    kept and OK comes after them. *)
Theorem healthz_always_answers_ok (h : handler) (w : http.ResponseWriter)
    (r : http.Request) :
  http.Status w = 0%Z →
  handleHealthz h http.freshWriter r =
    (Returned {| http.Header := ∅; http.Status := 200; http.Written := "OK" |}, h)
  ∧ handleHealthz h w r =
      (Returned {| http.Header := http.Header w; http.Status := 200;
                   http.Written := http.Written w +:+ "OK" |}, h).
Proof.
  intros Hw. split; [reflexivity|].
  unfold handleHealthz, http.Write, http.WriteHeader. simpl.
  rewrite Hw. simpl. reflexivity.
Qed.

(** X14.  Which message a rejected POST gets.  A body that does not decode:
    the decoder's message after a fixed prefix.  An operation other than
    create: the fixed text about the operation, whether or not the object
    would decode as a pod.  A create whose object does not decode: the
    decoder's message after another prefix.  All three with status 400 and
    the headers of [http.Error]. *)
Theorem rejected_post_messages (h : handler) (r : http.Request) :
  http.Method r = http.MethodPost →
  (∀ err,
     jsonDecodeAdmissionReview (http.Body r) = inl err →
     fst (handleInjectDriverReadySelector h http.freshWriter r) =
       Returned (http.Error http.freshWriter
                   ("unable to decode request: " +:+ err) 400))
  ∧ (∀ admrev req,
       jsonDecodeAdmissionReview (http.Body r) = inr admrev →
       Request admrev = Some req →
       Operation req ≠ Create →
       fst (handleInjectDriverReadySelector h http.freshWriter r) =
         Returned (http.Error http.freshWriter
                     "unsupported admission operation, operation must be 'create'"
                     400))
  ∧ (∀ admrev req err,
       jsonDecodeAdmissionReview (http.Body r) = inr admrev →
       Request admrev = Some req →
       Operation req = Create →
       jsonUnmarshalPod (ObjectRaw req) = inl err →
       fst (handleInjectDriverReadySelector h http.freshWriter r) =
         Returned (http.Error http.freshWriter
                     ("unable to decode request object, expected v1/Pod: "
                        +:+ err) 400))
  ∧ (∀ msg,
       http.Error http.freshWriter msg 400 =
         {| http.Header :=
              <["X-Content-Type-Options" := "nosniff"]>
                (<["Content-Type" := "text/plain; charset=utf-8"]> ∅);
            http.Status := 400;
            http.Written := msg +:+ http.lineFeed |}).
Proof.
  intros Hm. unfold handleInjectDriverReadySelector.
  rewrite decide_False by (intros Hne; by apply Hne).
  split; [|split; [|split]].
  - intros err Hd. by rewrite Hd.
  - intros admrev req Hd Hr Ho. rewrite Hd, Hr. by rewrite decide_True.
  - intros admrev req err Hd Hr Ho Hp. rewrite Hd, Hr.
    rewrite decide_False by (intros Hne; by apply Hne). by rewrite Hp.
  - intros msg. by apply Error_fresh.
Qed.
End HandlerResponses.

(** ** Goroutines sharing the set: progress, the informer on its own, and a
       request that never returns *)

Section GoroutinesFurther.
Import Interleaving.

Lemma tally_pos (f : list instr → bool) (codes : list (list instr)) :
  (1 ≤ tally f codes)%nat → ∃ g c, codes !! g = Some c ∧ f c = true.
Proof.
  induction codes as [|d codes IH]; simpl; [lia|].
  destruct (f d) eqn:Hd.
  - intros _. by exists 0, d.
  - intros Ht. destruct IH as (g & c & Hg & Hc); [lia|]. by exists (S g), c.
Qed.

Lemma served_by_pointer_guarded (ops : list setOp) (names : list string) :
  guarded (boot (watcherCode ops :: map requestCodeByPointer names)).
Proof.
  apply boot_guarded.
  - constructor.
    + unfold callsOnHandlerSet. rewrite watcherCode_outside.
      apply watcherCode_calls.
    + apply Forall_map. by apply Forall_true.
  - constructor; [apply watcherCode_outside|].
    apply Forall_map. by apply Forall_true.
Qed.

(** Under the accounting, a goroutine that holds the lock can take its next
    step, and when nobody holds it every goroutine with code left can. *)
Lemma guarded_progress (st : machine) (g : nat) (i : instr) (rest : list instr) :
  guarded st → goroutines st !! g = Some (i :: rest) →
  ∃ g' st', step st g' = Some st'.
Proof.
  intros (m & Hmu & Hall & Hw & Hr & Hex) Hg.
  assert (∀ g' c, goroutines st !! g' = Some c →
            match c with
            | [] | CopySet _ :: _ => True
            | Lock a :: _ | Unlock a :: _ | RLock a :: _ | RUnlock a :: _ =>
                a = handlerMutex
            | _ => True
            end) as Haddr.
  { intros g' [|j c] Hg'; [done|].
    pose proof (Forall_lookup_1 _ _ _ _ Hall Hg') as Hc. simpl in Hc.
    apply callsOnHandlerSet_cons in Hc as [_ Hj]. destruct j; tauto. }
  assert (∀ g' a c, goroutines st !! g' = Some (CopySet a :: c) → False) as Hnc.
  { intros g' a c Hg'.
    pose proof (Forall_lookup_1 _ _ _ _ Hall Hg') as Hc. simpl in Hc.
    by apply callsOnHandlerSet_cons in Hc as [_ Hj]. }
  destruct (writerHeld m) eqn:Hwh.
  - destruct (tally_pos holdsWrite (goroutines st)) as (g' & c & Hg' & Hc);
      [lia|].
    exists g'. unfold step. rewrite Hg'.
    pose proof (Haddr g' c Hg') as Ha.
    destruct c as [|[] c]; try done; simpl; [|eauto..].
    subst. rewrite Hmu. simpl. rewrite Hwh. eauto.
  - destruct (readerCount m) as [|k] eqn:Hrc.
    + exists g. unfold step. rewrite Hg.
      pose proof (Haddr g _ Hg) as Ha.
      destruct i; simpl; eauto.
      * by destruct (Hnc _ _ _ Hg).
      * subst. rewrite Hmu. simpl. rewrite Hwh, Hrc. eauto.
      * pose proof (tally_lookup holdsWrite _ _ _ Hg eq_refl). lia.
      * subst. rewrite Hmu. simpl. rewrite Hwh. eauto.
      * pose proof (tally_lookup holdsRead _ _ _ Hg eq_refl). lia.
    + destruct (tally_pos holdsRead (goroutines st)) as (g' & c & Hg' & Hc);
        [lia|].
      exists g'. unfold step. rewrite Hg'.
      pose proof (Haddr g' c Hg') as Ha.
      destruct c as [|[] c]; try done; simpl; [|eauto].
      subst. rewrite Hmu. simpl. rewrite Hrc. eauto.
Qed.

(** X16.  The methods never deadlock.  With the informer and any number of
    requests all calling the methods on the handler's own set, in every
    state any schedule leads to, some goroutine can take a step as long as
    one of them has code left. *)
Theorem methods_on_one_set_never_deadlock (ops : list setOp)
    (names : list string) (schedule : list nat) (st : machine) (g : nat)
    (i : instr) (rest : list instr) :
  run schedule (boot (watcherCode ops :: map requestCodeByPointer names))
    = Some st →
  goroutines st !! g = Some (i :: rest) →
  ∃ g' st', step st g' = Some st'.
Proof.
  intros Hrun Hg. eapply guarded_progress; [|exact Hg].
  eapply run_guarded; [|exact Hrun]. apply served_by_pointer_guarded.
Qed.
Lemma informer_alone_from (ops : list setOp) (mu : gmap nat RWMutex)
    (s : driverStorageClassesSet) :
  mu !! handlerMutex = Some zeroRWMutex →
  ∃ st,
    run (flat_map (λ _, [0; 0; 0]) ops)
      {| mutexes := mu; sharedMap := classes s;
         goroutines := [watcherCode ops] |} = Some st
    ∧ sharedMap st = classes (applyOps ops s)
    ∧ mutexes st !! handlerMutex = Some zeroRWMutex
    ∧ goroutines st = [[]].
Proof.
  revert mu s. induction ops as [|o ops IH]; intros mu s Hmu.
  - eexists. split; [reflexivity|]. done.
  - destruct (IH (<[handlerMutex := zeroRWMutex]>
                    (<[handlerMutex :=
                         {| writerHeld := true; readerCount := 0 |}]> mu))
                 (applyOp s o)) as (st & Hrun & Hst);
      [apply lookup_insert_eq|].
    exists st. split; [|exact Hst].
    destruct o as [n|n]; simpl; unfold step; simpl;
      rewrite Hmu; simpl; rewrite lookup_insert_eq; simpl; exact Hrun.
Qed.

(** X17.  Run with no other goroutine, the informer's calls do to the
    shared map exactly what the sequential methods do: after three steps
    for each call the map is the set [applyOps] computes from the empty
    one, the mutex is unlocked again and no code is left. *)
Theorem informer_alone_applies_the_calls (ops : list setOp) :
  ∃ st,
    run (flat_map (λ _, [0; 0; 0]) ops) (boot [watcherCode ops]) = Some st
    ∧ sharedMap st = classes (applyOps ops newDriverStorageClassesSet)
    ∧ mutexes st !! handlerMutex = Some zeroRWMutex
    ∧ goroutines st = [[]].
Proof.
  apply (informer_alone_from ops _ newDriverStorageClassesSet).
  apply lookup_singleton_eq.
Qed.



End GoroutinesFurther.

(** ** The further properties at work on the sample cluster *)

Section FurtherSamples.
Import Fixture Interleaving.

Lemma set_operations_compose_witness :
  "fast" ≠ "standard"
  ∧ remove (add newDriverStorageClassesSet "fast") "standard"
    = add (remove newDriverStorageClassesSet "standard") "fast".
Proof.
  assert ("fast" ≠ "standard") as Hne by discriminate.
  split; [exact Hne|].
  apply (set_operations_compose newDriverStorageClassesSet _ _ Hne).
Defined.

(** An add notification for a class of another provisioner. *)
Lemma foreign_object_changes_nothing_witness :
  AddFunc sampleDriverName (ObjStorageClass fastElsewhere) standardOnly
  = standardOnly.
Proof.
  apply (foreign_object_changes_nothing sampleDriverName
           (ObjStorageClass fastElsewhere) ObjOther standardOnly).
  intros stc [= <-]. discriminate.
Defined.

(** [fast] is present after its add, and the add is there to show for it. *)
Lemma watcher_inserts_only_driver_classes_witness :
  has (runWatcher sampleDriverName
         [AddEvent (ObjStorageClass fastElsewhere);
          AddEvent (ObjStorageClass fast)]
         newDriverStorageClassesSet) "fast" = true
  ∧ Exists (λ ev, inserts sampleDriverName "fast" ev = true)
      [AddEvent (ObjStorageClass fastElsewhere);
       AddEvent (ObjStorageClass fast)].
Proof.
  split; [reflexivity|].
  destruct (watcher_inserts_only_driver_classes sampleDriverName
              [AddEvent (ObjStorageClass fastElsewhere);
               AddEvent (ObjStorageClass fast)]
              newDriverStorageClassesSet "fast" eq_refl) as [Hs|Hex].
  - discriminate Hs.
  - exact Hex.
Defined.

(** Two default classes of the driver, [fast] and [slow]; [fast] goes. *)
Lemma default_entry_is_shared_witness :
  has (DeleteFunc sampleDriverName (ObjStorageClass fast)
         (AddFunc sampleDriverName
            (ObjStorageClass (storageClass "slow" sampleDriverName true))
            (AddFunc sampleDriverName (ObjStorageClass fast)
               newDriverStorageClassesSet)))
      "" = false.
Proof.
  apply (default_entry_is_shared sampleDriverName fast
           (storageClass "slow" sampleDriverName true)
           newDriverStorageClassesSet);
    first [reflexivity | discriminate].
Defined.

(** The pod whose claim names a class of the set gets the patch. *)
Lemma patch_is_attached_exactly_when_needed_witness :
  fst (handleInjectDriverReadySelector (sampleHandler standardOnly)
         http.freshWriter (post "create plain"))
  = Returned (jsonOKResponse http.freshWriter
                (reviewWith (reviewOf "CREATE" "plain")
                   (patchedAllow (sampleHandler standardOnly)
                      (requestOf "CREATE" "plain")))).
Proof.
  apply (patch_is_attached_exactly_when_needed (sampleHandler standardOnly)
           http.freshWriter (post "create plain") (reviewOf "CREATE" "plain")
           (requestOf "CREATE" "plain") plainPod);
    reflexivity.
Defined.

(** An update operation is answered 400. *)
Lemma handler_status_is_one_of_four_witness :
  ∃ w', fst (handleInjectDriverReadySelector (sampleHandler standardOnly)
               http.freshWriter (post "update plain")) = Returned w'
        ∧ http.Status w' = 400%Z.
Proof.
  eexists. split; [reflexivity|].
  destruct (handler_status_is_one_of_four (sampleHandler standardOnly)
              (post "update plain") _ eq_refl) as [[Hs _]|[_ _]].
  - discriminate Hs.
  - reflexivity.
Defined.

(** The callee of the sample cluster only reads the set. *)
Lemma handler_only_reads_the_set_witness :
  snd (handleInjectDriverReadySelector (sampleHandler standardOnly)
         http.freshWriter (post "create plain"))
  = sampleHandler standardOnly.
Proof.
  apply (handler_only_reads_the_set (sampleHandler standardOnly)
           http.freshWriter (post "create plain")).
  reflexivity.
Defined.

Lemma healthz_always_answers_ok_witness :
  handleHealthz (sampleHandler standardOnly) http.freshWriter get
  = (Returned {| http.Header := ∅; http.Status := 200; http.Written := "OK" |},
     sampleHandler standardOnly).
Proof.
  apply (healthz_always_answers_ok (sampleHandler standardOnly)
           http.freshWriter get eq_refl).
Defined.

(** An update operation on an object that is no pod: the message is the one
    about the operation. *)
Lemma rejected_post_messages_witness :
  fst (handleInjectDriverReadySelector (sampleHandler standardOnly)
         http.freshWriter (post "update plain"))
  = Returned (http.Error http.freshWriter
                "unsupported admission operation, operation must be 'create'"
                400).
Proof.
  destruct (rejected_post_messages (sampleHandler standardOnly)
              (post "update plain") eq_refl) as (_ & Hop & _).
  apply (Hop (reviewOf "UPDATE" "plain") (requestOf "UPDATE" "plain"));
    first [reflexivity | discriminate].
Defined.

(** The informer adds [standard] while two requests ask for it; the
    informer locks first, finishes, and the requests then read together. *)
Lemma methods_on_one_set_never_race_witness :
  ∃ st,
    run [0; 0; 0; 1; 2; 1; 2]
      (boot (watcherCode [OpAdd "standard"]
               :: map requestCodeByPointer ["standard"; "standard"])) = Some st
    ∧ ¬ dataRace st.
Proof.
  eexists. split; [vm_compute; reflexivity|].
  apply (methods_on_one_set_never_race [OpAdd "standard"]
           ["standard"; "standard"] [0; 0; 0; 1; 2; 1; 2]).
  vm_compute. reflexivity.
Defined.

(** The informer holds the write lock and both requests wait: the informer
    can move. *)
Lemma methods_on_one_set_never_deadlock_witness :
  ∃ st g' st',
    run [0]
      (boot (watcherCode [OpAdd "standard"]
               :: map requestCodeByPointer ["standard"; "standard"])) = Some st
    ∧ step st 1 = None ∧ step st 2 = None
    ∧ step st g' = Some st'.
Proof.
  eexists.
  destruct (methods_on_one_set_never_deadlock [OpAdd "standard"]
              ["standard"; "standard"] [0] _ 1 (RLock 0)
              [MapLoad "standard"; RUnlock 0] eq_refl eq_refl)
    as (g' & st' & Hstep).
  exists g', st'. split; [reflexivity|]. split; [reflexivity|].
  split; [reflexivity | exact Hstep].
Defined.

End FurtherSamples.
